(** * OpenStreetMap wrangler and auditor: a shallow embedding

    The development embeds the field normalisers of [osm_wrangler.py]
    ([shape_streetname], [shape_zipcode], [shape_city], [shape_population]),
    its orchestration [process_data], and [audit_population] of
    [osm_auditor.py].

    Conventions of the embedding:
    - a Python [str] is a [string] of code points below 256; the character
      classes ([\w], [\d], [\s], [isdigit], whitespace) and the case
      mappings are those of Python 3 on these code points.  Three letters,
      U+00B5, U+00DF and U+00FF, have no capital that is one code point
      below 256: [Char.upper] leaves them as they are, and the statements
      that depend on a capitalised token exclude them ([Str.titled] of the
      street, or [plain] of its tokens);
    - a Python list is a [list], indexed by [Z] with Python's rule for
      negative indices; an index out of range raises [IndexError];
    - a Python dict is a [gmap] (the reference table) or, where the order of
      the keys is observable (XML attributes, csv rows), an association list;
    - a raised exception is the [Raise] branch of [result]; the text files and
      csv writers the code appends to are fields of an explicit record that
      is threaded through the calls. *)

From Stdlib Require Import ZArith Ascii String List Bool Lia Sorted.
From stdpp Require Import base option list gmap strings.
Import ListNotations.

Local Open Scope string_scope.
Local Open Scope Z_scope.
Local Open Scope list_scope.

(** ** Exceptions and results *)

Inductive exn : Type :=
| IndexError
| KeyError
| ValueError
| TypeError
| AttributeError
| UnboundLocalError
| RequestError.

Inductive result (A : Type) : Type :=
| Ok (a : A)
| Raise (e : exn).

Arguments Ok {A} a.
Arguments Raise {A} e.

Definition rbind {A B : Type} (r : result A) (k : A -> result B) : result B :=
  match r with
  | Ok a => k a
  | Raise e => Raise e
  end.

Notation "'let*' x ':=' r 'in' k" := (rbind r (fun x => k))
  (at level 10, x pattern, r at level 100, k at level 200).

Definition of_option {A : Type} (e : exn) (o : option A) : result A :=
  match o with
  | Some a => Ok a
  | None => Raise e
  end.

(** ** Python values that reach a tag's [v] attribute or a log line *)

Inductive pyval : Type :=
| VNone
| VStr (s : string)
| VInt (z : Z)
| VList (l : list string).

(** ** Characters *)

Module Char.

Definition code (c : ascii) : N := N_of_ascii c.

Definition between (lo hi : N) (c : ascii) : bool :=
  ((lo <=? code c) && (code c <=? hi))%N.

Definition one_of (codes : list N) (c : ascii) : bool :=
  existsb (N.eqb (code c)) codes.

(** The decimal digits: [\d], and the digits [int] reads. *)
Definition is_digit : ascii -> bool := between 48 57.

(** The characters of [str.isdigit]: the decimal digits and the superscripts
    U+00B2, U+00B3, U+00B9. *)
Definition is_isdigit (c : ascii) : bool :=
  is_digit c || one_of [178; 179; 185]%N c.

(** The letters with a lower-case form: A to Z, U+00C0 to U+00DE without
    the multiplication sign. *)
Definition is_upper (c : ascii) : bool :=
  between 65 90 c || between 192 214 c || between 216 222 c.

(** The letters with a capital below 256: a to z, U+00E0 to U+00FE without
    the division sign. *)
Definition is_lower (c : ascii) : bool :=
  between 97 122 c || between 224 246 c || between 248 254 c.

(** The letters whose capital is no single code point below 256: U+00B5,
    U+00DF, U+00FF. *)
Definition title_outside : ascii -> bool := one_of [181; 223; 255]%N.

(** [str.isalpha]: the cased letters and the ordinal indicators U+00AA and
    U+00BA. *)
Definition is_alpha (c : ascii) : bool :=
  is_upper c || is_lower c || title_outside c || one_of [170; 186]%N c.

(** [\w] of the [re] module on a [str]: alphanumeric, which includes the
    fractions U+00BC to U+00BE, or the underscore. *)
Definition is_word (c : ascii) : bool :=
  is_alpha c || is_isdigit c || between 188 190 c || (code c =? 95)%N.

(** The characters [str.strip], [str.split], [\s] and [int] treat as
    whitespace. *)
Definition is_space (c : ascii) : bool :=
  between 9 13 c || between 28 32 c || one_of [133; 160]%N c.

Definition is_dot (c : ascii) : bool := (code c =? 46)%N.
Definition is_hash (c : ascii) : bool := (code c =? 35)%N.
Definition is_blank (c : ascii) : bool := (code c =? 32)%N.

Definition lower (c : ascii) : ascii :=
  if is_upper c then ascii_of_N (code c + 32) else c.

(** The capital of a letter, where it is a code point below 256. *)
Definition upper (c : ascii) : ascii :=
  if is_lower c then ascii_of_N (code c - 32) else c.

End Char.

(** ** Python string methods *)

Module Str.

Fixpoint map (f : ascii -> ascii) (s : string) : string :=
  match s with
  | EmptyString => EmptyString
  | String c s' => String (f c) (map f s')
  end.

Fixpoint forallb (p : ascii -> bool) (s : string) : bool :=
  match s with
  | EmptyString => true
  | String c s' => p c && forallb p s'
  end.

Fixpoint filter (p : ascii -> bool) (s : string) : string :=
  match s with
  | EmptyString => EmptyString
  | String c s' => if p c then String c (filter p s') else filter p s'
  end.

Definition is_empty (s : string) : bool :=
  match s with
  | EmptyString => true
  | String _ _ => false
  end.

(** [s.lower()] *)
Definition lower : string -> string := map Char.lower.

(** [s.capitalize()]: the first character in title case, the others in
    lower case. *)
Definition capitalize (s : string) : string :=
  match s with
  | EmptyString => EmptyString
  | String c s' => String (Char.upper c) (lower s')
  end.

(** [s.isdigit()]: false on the empty string. *)
Definition isdigit (s : string) : bool :=
  negb (is_empty s) && forallb Char.is_isdigit s.

(** No character is one of the three letters [Char.upper] cannot
    capitalise. *)
Definition titled (s : string) : bool :=
  forallb (fun c => negb (Char.title_outside c)) s.

Fixpoint lstrip (p : ascii -> bool) (s : string) : string :=
  match s with
  | EmptyString => EmptyString
  | String c s' => if p c then lstrip p s' else s
  end.

Fixpoint rstrip (p : ascii -> bool) (s : string) : string :=
  match s with
  | EmptyString => EmptyString
  | String c s' =>
      let r := rstrip p s' in
      if is_empty r && p c then EmptyString else String c r
  end.

(** [s.strip()] is [strip Char.is_space s]; [s.strip('.')] is
    [strip Char.is_dot s]. *)
Definition strip (p : ascii -> bool) (s : string) : string :=
  rstrip p (lstrip p s).

(** [s.split(' ')]: one piece more than there are blanks. *)
Fixpoint split_blank (s : string) : list string :=
  match s with
  | EmptyString => [EmptyString]
  | String c s' =>
      if Char.is_blank c then EmptyString :: split_blank s'
      else match split_blank s' with
           | [] => [String c EmptyString]
           | t :: ts => String c t :: ts
           end
  end.

(** [' '.join(l)] *)
Definition join_blank (l : list string) : string := String.concat " " l.

(** ["".join(s.split())]: the string without its whitespace. *)
Definition remove_space (s : string) : string :=
  filter (fun c => negb (Char.is_space c)) s.

(** [re.sub("#\w+", "", s)].  [skipping] holds while the scan is inside a
    match, whose [\w+] is greedy. *)
Fixpoint sub_hash_go (skipping : bool) (s : string) : string :=
  match s with
  | EmptyString => EmptyString
  | String c s' =>
      if skipping && Char.is_word c then sub_hash_go true s'
      else
        match s' with
        | String d _ =>
            if Char.is_hash c && Char.is_word d then sub_hash_go true s'
            else String c (sub_hash_go false s')
        | EmptyString => String c EmptyString
        end
  end.

Definition sub_hash (s : string) : string := sub_hash_go false s.

(** [s.encode('ascii', 'ignore').decode('ascii')] *)
Definition ascii_only (s : string) : string :=
  filter (fun c => (Char.code c <? 128)%N) s.

Fixpoint prefixb (p s : string) : bool :=
  match p, s with
  | EmptyString, _ => true
  | String a p', String b s' => Ascii.eqb a b && prefixb p' s'
  | String _ _, EmptyString => false
  end.

(** Whether [p] occurs in [s]. *)
Fixpoint containsb (p s : string) : bool :=
  prefixb p s ||
  match s with
  | EmptyString => false
  | String _ s' => containsb p s'
  end.

End Str.

(** ** Python list operations on [Z] indices *)

Module PyList.
Section Ops.
Context {A : Type}.

Definition len (l : list A) : Z := Z.of_nat (length l).

(** The position an index denotes, when it is in range. *)
Definition position (l : list A) (i : Z) : option nat :=
  let j := if i <? 0 then i + len l else i in
  if (0 <=? j) && (j <? len l) then Some (Z.to_nat j) else None.

(** [l[i]] *)
Definition get (l : list A) (i : Z) : result A :=
  match position l i with
  | Some n => of_option IndexError (l !! n)
  | None => Raise IndexError
  end.

(** [l.pop(i)]: the element and the list without it. *)
Definition pop (l : list A) (i : Z) : result (A * list A) :=
  match position l i with
  | Some n =>
      match l !! n with
      | Some x => Ok (x, take n l ++ drop (S n) l)
      | None => Raise IndexError
      end
  | None => Raise IndexError
  end.

(** [l[i] = x] *)
Definition set (l : list A) (i : Z) (x : A) : result (list A) :=
  match position l i with
  | Some n => Ok (<[n:=x]> l)
  | None => Raise IndexError
  end.

(** [l.insert(i, x)]: the index is clipped to the list, never an error. *)
Definition insert (l : list A) (i : Z) (x : A) : list A :=
  let j := if i <? 0 then Z.max 0 (i + len l) else Z.min i (len l) in
  take (Z.to_nat j) l ++ x :: drop (Z.to_nat j) l.

(** [range(n)] *)
Definition range (n : Z) : list Z :=
  List.map Z.of_nat (seq 0 (Z.to_nat n)).
End Ops.
End PyList.

(** ** Small dictionaries written as literals in the source *)

Fixpoint dict_get {V : Type} (d : list (string * V)) (k : string) : option V :=
  match d with
  | [] => None
  | (k', v) :: d' => if String.eqb k' k then Some v else dict_get d' k
  end.

(** [d[k] = v]: the key keeps its place when it is there already. *)
Fixpoint dict_set {V : Type} (d : list (string * V)) (k : string) (v : V)
  : list (string * V) :=
  match d with
  | [] => [(k, v)]
  | (k', v') :: d' =>
      if String.eqb k' k then (k', v) :: d' else (k', v') :: dict_set d' k v
  end.

(** [x in l] for a list of strings. *)
Definition in_list (x : string) (l : list string) : bool :=
  existsb (String.eqb x) l.

(** ** The wrangler object: its reference table and its output files *)

(** A line of a text file is kept as the tuple of values handed to
    [str.format]; a csv row as the dictionary handed to [writerow]. *)
Record Wrangler : Type := mkWrangler {
  pop_est : gmap string (string * string);
  cleaned_streets : list (string * string);
  cleaned_cities : list (string * string);
  cleaned_zipcodes : list (string * pyval);
  cleaned_population : list (string * Z * pyval);
  node_rows : list (list (string * pyval));
  tag_rows : list (list (string * pyval))
}.

Definition write_street (w : Wrangler) (line : string * string) : Wrangler :=
  mkWrangler (pop_est w) (cleaned_streets w ++ [line]) (cleaned_cities w)
    (cleaned_zipcodes w) (cleaned_population w) (node_rows w) (tag_rows w).

Definition write_city (w : Wrangler) (line : string * string) : Wrangler :=
  mkWrangler (pop_est w) (cleaned_streets w) (cleaned_cities w ++ [line])
    (cleaned_zipcodes w) (cleaned_population w) (node_rows w) (tag_rows w).

Definition write_zipcode (w : Wrangler) (line : string * pyval) : Wrangler :=
  mkWrangler (pop_est w) (cleaned_streets w) (cleaned_cities w)
    (cleaned_zipcodes w ++ [line]) (cleaned_population w) (node_rows w)
    (tag_rows w).

Definition write_population (w : Wrangler) (line : string * Z * pyval)
  : Wrangler :=
  mkWrangler (pop_est w) (cleaned_streets w) (cleaned_cities w)
    (cleaned_zipcodes w) (cleaned_population w ++ [line]) (node_rows w)
    (tag_rows w).

Definition write_node_row (w : Wrangler) (row : list (string * pyval))
  : Wrangler :=
  mkWrangler (pop_est w) (cleaned_streets w) (cleaned_cities w)
    (cleaned_zipcodes w) (cleaned_population w) (node_rows w ++ [row])
    (tag_rows w).

Definition write_tag_row (w : Wrangler) (row : list (string * pyval))
  : Wrangler :=
  mkWrangler (pop_est w) (cleaned_streets w) (cleaned_cities w)
    (cleaned_zipcodes w) (cleaned_population w) (node_rows w)
    (tag_rows w ++ [row]).

(** The object [Wrangler(file_name)] builds, with its reference table. *)
Definition new_wrangler (table : gmap string (string * string)) : Wrangler :=
  mkWrangler table [] [] [] [] [] [].

(** ** [Wrangler.shape_streetname] *)

Definition directions : list string := ["North"; "South"; "East"; "West"].

Definition direc_d : list (string * string) :=
  [("N", "North"); ("S", "South"); ("E", "East"); ("W", "West")].

Definition street_types_d : list (string * string) :=
  [("blvd", "Boulevard"); ("st", "Street"); ("ave", "Avenue");
   ("hwy", "Highway"); ("IH", "Interstate Highway"); ("cir", "Circle");
   ("ct", "Court"); ("cv", "Cove"); ("dr", "Drive"); ("ln", "Lane");
   ("rd", "Road"); ("pkwy", "Parkway")].

(** The loop [for i in [0, len(street_elements)-1]] over the index list it was
    given; a [break] is the end of the recursion. *)
Fixpoint direction_loop (idxs : list Z) (street_elements : list string)
  : result (list string) :=
  match idxs with
  | [] => Ok street_elements
  | i :: rest =>
      let* e := PyList.get street_elements i in
      match dict_get direc_d e with
      | Some _ =>
          let* (p, popped) := PyList.pop street_elements i in
          let* d := of_option KeyError (dict_get direc_d p) in
          Ok (PyList.insert popped 0 d)
      | None =>
          let* e' := PyList.get street_elements i in
          if in_list (Str.capitalize e') directions then
            let* (p, popped) := PyList.pop street_elements i in
            Ok (PyList.insert popped 0 (Str.capitalize p))
          else direction_loop rest street_elements
      end
  end.

(** The loop [for i in range(len(street_elements))].  In the call of
    [insert], Python evaluates the index [len(street_elements)-1] before the
    [pop] of the second argument. *)
Fixpoint type_loop (idxs : list Z) (street_elements : list string)
  : result (list string) :=
  match idxs with
  | [] => Ok street_elements
  | i :: rest =>
      let* e := PyList.get street_elements i in
      match dict_get street_types_d (Str.lower e) with
      | Some _ =>
          let street_type := Str.lower e in
          if String.eqb street_type "hwy" then
            let* e' := PyList.get street_elements i in
            let* c := of_option KeyError
                        (dict_get street_types_d (Str.lower e')) in
            PyList.set street_elements i c
          else
            let k := PyList.len street_elements - 1 in
            let* (p, popped) := PyList.pop street_elements i in
            let* c := of_option KeyError
                        (dict_get street_types_d (Str.lower p)) in
            type_loop rest (PyList.insert popped k c)
      | None => type_loop rest street_elements
      end
  end.

(** Lines 198 to 201: the tokens the two loops start from. *)
Definition street_tokens (street : string) : result (list string) :=
  let street := Str.strip Char.is_space (Str.sub_hash street) in
  let street_elements :=
    List.map (Str.strip Char.is_dot) (Str.split_blank street) in
  let* e0 := PyList.get street_elements 0 in
  if Str.isdigit e0 then
    let* (_, popped) := PyList.pop street_elements 0 in Ok popped
  else Ok street_elements.

Definition street_type_pass (street_elements : list string)
  : result (list string) :=
  type_loop (PyList.range (PyList.len street_elements)) street_elements.

Definition shape_streetname (street : string) (w : Wrangler)
  : result (string * Wrangler) :=
  let orig_street := street in
  let street := Str.strip Char.is_space (Str.sub_hash street) in
  let* street_elements := street_tokens orig_street in
  let* street_elements :=
    direction_loop [0; PyList.len street_elements - 1] street_elements in
  let* street_elements := street_type_pass street_elements in
  let new_street := Str.join_blank (List.map Str.capitalize street_elements) in
  if negb (String.eqb street new_street) then
    Ok (new_street, write_street w (orig_street, new_street))
  else Ok (new_street, w).

(** ** [Wrangler.shape_city] *)

Definition cities : list string :=
  ["Austin"; "Georgetown"; "Creedmoor"; "Dripping Springs";
   "Taylor"; "West Lake Hills"; "Cedar Park"; "Elgin"; "Lakeway";
   "Bastrop"; "Buda"; "Cedar Creek"; "Manchaca";
   "Spicewood"; "Dale"; "Kyle"; "Leander"; "San Marcos"; "Manor";
   "Lago Vista"; "Maxwell"; "Sunset Valley"; "Del Valle";
   "Smithville"; "Lost Pines"; "Webberville"; "Bee Cave";
   "Spicewood"; "Elgin"; "Wimberley"; "Pflugerville"; "Round Rock";
   "Hutto"; "Jonestown"; "Barton Creek"; "Driftwood"; "Liberty Hill";
   "Leander"].

(** The loop [for name in cities]; [city] is rebound to its whitespace-free
    form in the first iteration, which later iterations leave as it is. *)
Fixpoint city_loop (names : list string) (city : string) (w : Wrangler)
  : pyval * Wrangler :=
  match names with
  | [] => (VNone, w)
  | name :: rest =>
      let temp := Str.filter (fun c => negb (Char.is_blank c)) name in
      let city := Str.remove_space city in
      if Str.containsb (Str.lower temp) (Str.lower city) then
        (VStr name, write_city w (city, name))
      else city_loop rest city w
  end.

Definition shape_city (city : string) (w : Wrangler) : pyval * Wrangler :=
  city_loop cities city w.

(** ** [Wrangler.shape_population] *)

Definition digit_value (c : ascii) : Z := Z.of_N (Char.code c) - 48.

(** The digits of an [int] literal: underscores only between two digits. *)
Fixpoint parse_digits (after_digit : bool) (acc : Z) (s : string) : option Z :=
  match s with
  | EmptyString => if after_digit then Some acc else None
  | String c s' =>
      if Char.is_digit c then parse_digits true (10 * acc + digit_value c) s'
      else if (Char.code c =? 95)%N && after_digit
           then parse_digits false acc s'
           else None
  end.

(** [int(s)] for a string [s]. *)
Definition py_int (s : string) : result Z :=
  of_option ValueError
    match Str.strip Char.is_space s with
    | String "+" r => parse_digits false 0 r
    | String "-" r => Z.opp <$> parse_digits false 0 r
    | r => parse_digits false 0 r
    end.

(** [pop_2016 != osm_pop], where [osm_pop] is an [int]. *)
Definition differs_from_int (x : pyval) (n : Z) : bool :=
  match x with
  | VInt z => negb (z =? n)
  | _ => true
  end.

Definition shape_population (name popul : string) (w : Wrangler)
  : result (pyval * Wrangler) :=
  let* osm_pop := py_int popul in
  let pop_2016 :=
    match pop_est w !! "name" with
    | Some (census, estimate) => VList [census; estimate]
    | None => VInt osm_pop
    end in
  if differs_from_int pop_2016 osm_pop then
    Ok (pop_2016, write_population w (name, osm_pop, pop_2016))
  else Ok (pop_2016, w).

(** ** [Wrangler.shape_zipcode] and [Wrangler.get_zcode] *)

(** [re.findall(r'(\d{5})', s)]: [n] digits are pending in [acc]. *)
Fixpoint findall_d5_go (acc : string) (n : nat) (s : string) : list string :=
  match s with
  | EmptyString => []
  | String c s' =>
      if Char.is_digit c then
        let acc' := (acc ++ String c EmptyString)%string in
        match n with
        | 4%nat => acc' :: findall_d5_go EmptyString 0 s'
        | _ => findall_d5_go acc' (S n) s'
        end
      else findall_d5_go EmptyString 0 s'
  end.

Definition findall_d5 (s : string) : list string :=
  findall_d5_go EmptyString 0 s.

(** [new_zcode and new_zcode[0][0] == '7']: the match the first branch of
    [shape_zipcode] returns. *)
Definition regional (new_zcode : list string) : option string :=
  match new_zcode with
  | m :: _ => if Str.prefixb "7" m then Some m else None
  | [] => None
  end.

(** An XML element with the children the code reads: their names and
    attributes. *)
Record Child : Type := mkChild {
  c_tag : string;
  c_attrib : list (string * string)
}.

Record Element : Type := mkElement {
  e_tag : string;
  e_attrib : list (string * string);
  e_children : list Child
}.

Record Counts : Type := mkCounts {
  exemption_count : Z;
  count_tags : Z;
  count_tags_cleaned : Z
}.

Definition node_fieldnames : list string :=
  ["lat"; "uid"; "lon"; "timestamp"; "user"; "id"; "changeset"; "version"].

Definition tag_fieldnames : list string := ["id"; "k"; "v"].

(** [csv.DictWriter.writerow] raises on a key outside its field names. *)
Definition writable (fieldnames : list string) (row : list (string * pyval))
  : bool :=
  List.forallb (fun kv => in_list (fst kv) fieldnames) row.

Definition header (fieldnames : list string) : list (string * pyval) :=
  List.map (fun v => (v, VStr v)) fieldnames.

(** [reset_data_files]: both csv files start again from their header row. *)
Definition reset_data_files (w : Wrangler) : Wrangler :=
  mkWrangler (pop_est w) (cleaned_streets w) (cleaned_cities w)
    (cleaned_zipcodes w) (cleaned_population w)
    [header node_fieldnames] [header tag_fieldnames].

(** [k == key], where [k] is a string or [None]. *)
Definition key_is (k : option string) (key : string) : bool :=
  match k with
  | Some k' => String.eqb k' key
  | None => false
  end.

(** [element.findall("./tag")] and [element.findall("./tag[@k='...']")] *)
Definition findall_tag (element : Element) : list Child :=
  List.filter (fun c => String.eqb (c_tag c) "tag") (e_children element).

Definition findall_tag_k (key : string) (element : Element) : list Child :=
  List.filter
    (fun c => key_is (dict_get (c_attrib c) "k") key)
    (findall_tag element).

(** [new != v], where [v] is a string or, when the attribute is missing,
    [None]. *)
Definition differs (new : pyval) (v : option string) : bool :=
  match new, v with
  | VNone, None => false
  | VStr a, Some b => negb (String.eqb a b)
  | _, _ => true
  end.

Section External.

(** Whether the builtin [float] accepts a string. *)
Variable float_ok : string -> bool.

(** The geocoding request for a latitude and a longitude: the postal code
    it yields, none, or the exception the handling of the response ends in. *)
Variable geocode : string -> string -> result (option Z).

Definition get_zcode (lat lon : option string) : result pyval :=
  match lat, lon with
  | Some lat, Some lon =>
      if negb (float_ok lat) then Raise ValueError
      else if negb (float_ok lon) then Raise ValueError
      else
        let* zcode := geocode lat lon in
        match zcode with
        | Some z => Ok (VInt z)
        | None => Ok VNone
        end
  | _, _ => Ok VNone
  end.

Definition shape_zipcode (zcode : string) (lat lon : option string)
    (w : Wrangler) : result (pyval * Wrangler) :=
  let zcode := Str.ascii_only zcode in
  let new_zcode := findall_d5 zcode in
  match regional new_zcode with
  | Some new_zcode =>
      Ok (VStr new_zcode, write_zipcode w (zcode, VStr new_zcode))
  | None =>
      let* new_zcode := get_zcode lat lon in
      Ok (new_zcode, write_zipcode w (zcode, new_zcode))
  end.

(** ** [Wrangler.process_data] *)

(** The dispatch on [k]; a missing [v] is Python's [None], on which each
    shape function raises at its first use of it. *)
Definition shape_tag (element : Element) (lat lon : option string)
    (k v : option string) (attrib : list (string * pyval)) (w : Wrangler)
  : result (pyval * list (string * pyval) * Wrangler) :=
  let governed (r : result (pyval * Wrangler)) :=
    let* (new, w') := r in Ok (new, dict_set attrib "v" new, w') in
  if key_is k "addr:postcode" then
    governed (let* v := of_option AttributeError v in
              shape_zipcode v lat lon w)
  else if key_is k "addr:city" then
    governed (let* v := of_option AttributeError v in
              Ok (shape_city v w))
  else if key_is k "addr:street" then
    governed (let* v := of_option TypeError v in
              let* (new, w') := shape_streetname v w in
              Ok (VStr new, w'))
  else if key_is k "population" then
    governed (let* name_tag :=
                PyList.get (findall_tag_k "name" element) 0 in
              let* city_name :=
                of_option KeyError (dict_get (c_attrib name_tag) "v") in
              let* v := of_option TypeError v in
              shape_population city_name v w)
  else Ok (VNone, attrib, w).

(** The loop [for child in element.findall("./tag")]. *)
Fixpoint tag_loop (element : Element) (element_id : string)
    (lat lon : option string) (children : list Child)
    (st : Counts * Wrangler) : result (Counts * Wrangler) :=
  match children with
  | [] => Ok st
  | child :: rest =>
      let (c, w) := st in
      let attrib :=
        dict_set (List.map (fun kv => (fst kv, VStr (snd kv)))
                    (c_attrib child))
          "id" (VStr element_id) in
      let k := dict_get (c_attrib child) "k" in
      let v := dict_get (c_attrib child) "v" in
      let c := mkCounts (exemption_count c) (count_tags c + 1)
                 (count_tags_cleaned c) in
      let* (new, attrib, w) := shape_tag element lat lon k v attrib w in
      let c := if differs new v
               then mkCounts (exemption_count c) (count_tags c)
                      (count_tags_cleaned c + 1)
               else c in
      if writable tag_fieldnames attrib then
        tag_loop element element_id lat lon rest (c, write_tag_row w attrib)
      else
        tag_loop element element_id lat lon rest
          (mkCounts (exemption_count c + 1) (count_tags c)
             (count_tags_cleaned c), w)
  end.

(** The loop [for element in self.get_element()]. *)
Fixpoint element_loop (elements : list Element) (st : Counts * Wrangler)
  : result (Counts * Wrangler) :=
  match elements with
  | [] => Ok st
  | element :: rest =>
      let (c, w) := st in
      let* element_id := of_option KeyError
                           (dict_get (e_attrib element) "id") in
      let lat := dict_get (e_attrib element) "lat" in
      let lon := dict_get (e_attrib element) "lon" in
      let row := List.map (fun kv => (fst kv, VStr (snd kv)))
                   (e_attrib element) in
      if negb (writable node_fieldnames row) then
        element_loop rest
          (mkCounts (exemption_count c + 1) (count_tags c)
             (count_tags_cleaned c), w)
      else
        let w := write_node_row w row in
        match e_children element with
        | [] => element_loop rest (c, w)
        | _ :: _ =>
            let* st' := tag_loop element element_id lat lon
                          (findall_tag element) (c, w) in
            element_loop rest st'
        end
  end.

(** [get_element(tags=('node'))]: the default is the string ['node'], so
    that [elem.tag in tags] asks whether the name occurs in it.  A document
    is the list of the elements below its root. *)
Definition get_element (doc : list Element) : list Element :=
  List.filter (fun e => Str.containsb (e_tag e) "node") doc.

(** The counters [process_data] prints, and the files it leaves. *)
Definition process_data (doc : list Element) (w : Wrangler)
  : result (Counts * Wrangler) :=
  element_loop (get_element doc) (mkCounts 0 0 0, reset_data_files w).

End External.

(** ** [Audit.audit_population] *)

Module Audit.

Definition get_element (doc : list Element) : list Element :=
  List.filter (fun e => in_list (e_tag e) ["node"; "way"; "relation"]) doc.

(** The loop of [audit_population]; [popul_2016] is [None] while the local
    variable of that name is unbound. *)
Fixpoint population_loop (pop_est : gmap string (string * string))
    (elements : list Element) (popul_2016 : option (list pyval))
    (popul_data : list (pyval * string * pyval))
  : result (list (pyval * string * pyval)) :=
  match elements with
  | [] => Ok popul_data
  | element :: rest =>
      let name := findall_tag_k "name" element in
      let popul := findall_tag_k "population" element in
      match popul with
      | [] => population_loop pop_est rest popul_2016 popul_data
      | p0 :: _ =>
          let* popul := of_option KeyError (dict_get (c_attrib p0) "v") in
          let* (name, popul_2016) :=
            match name with
            | [] => Ok (VList [], popul_2016)
            | n0 :: _ =>
                let* name := of_option KeyError
                               (dict_get (c_attrib n0) "v") in
                Ok (VStr name,
                    Some match pop_est !! name with
                         | Some (census, estimate) =>
                             [VStr census; VStr estimate]
                         | None => [VInt 0; VStr popul]
                         end)
            end in
          let* bound := of_option UnboundLocalError popul_2016 in
          let* estimate := PyList.get bound 1 in
          population_loop pop_est rest popul_2016
            (popul_data ++ [(name, popul, estimate)])
      end
  end.

Definition audit_population (pop_est : gmap string (string * string))
    (doc : list Element) : result (list (pyval * string * pyval)) :=
  population_loop pop_est (get_element doc) None [].

(** *** The tallies *)

(** A [defaultdict(int)] keyed by the value of a tag, which is [None] when
    the tag has no [v]; the entries are in the order of their insertion. *)
Fixpoint tally_get (d : list (option string * Z)) (k : option string)
  : option Z :=
  match d with
  | [] => None
  | (k', n) :: d' => if decide (k' = k) then Some n else tally_get d' k
  end.

Fixpoint tally_set (d : list (option string * Z)) (k : option string) (n : Z)
  : list (option string * Z) :=
  match d with
  | [] => [(k, n)]
  | (k', n') :: d' =>
      if decide (k' = k) then (k', n) :: d' else (k', n') :: tally_set d' k n
  end.

(** [d[k] += 1] *)
Definition tally_incr (d : list (option string * Z)) (k : option string)
  : list (option string * Z) :=
  tally_set d k (default 0 (tally_get d k) + 1).

(** [for tag in element.iter('tag')]: a yielded element is a [node], a [way]
    or a [relation], and its children have none of their own, so the tags
    are its [tag] children. *)
Definition iter_tag (element : Element) : list Child := findall_tag element.

(** The loops of [audit_cities] and of [audit_amenities]. *)
Definition tally_tags (key : string) (d : list (option string * Z))
    (elements : list Element) : list (option string * Z) :=
  fold_left
    (fun d element =>
       fold_left
         (fun d tag =>
            if key_is (dict_get (c_attrib tag) "k") key
            then tally_incr d (dict_get (c_attrib tag) "v")
            else d)
         (iter_tag element) d)
    elements d.

(** [sorted(keys, key=lambda s: s.lower())]: the sort is stable, which
    fixes its result; it is written here as an insertion sort. *)
Fixpoint insert_key (k : string) (l : list string) : list string :=
  match l with
  | [] => [k]
  | k' :: l' =>
      if String.leb (Str.lower k) (Str.lower k') then k :: k' :: l'
      else k' :: insert_key k l'
  end.

Definition sorted_keys (keys : list string) : list string :=
  foldr insert_key [] keys.

(** The keys of a tally as strings; [None] has no [lower]. *)
Fixpoint string_keys (d : list (option string * Z)) : result (list string) :=
  match d with
  | [] => Ok []
  | (Some k, _) :: d' => let* ks := string_keys d' in Ok (k :: ks)
  | (None, _) :: _ => Raise AttributeError
  end.

Fixpoint lines_of (d : list (option string * Z)) (keys : list string)
  : result (list (string * Z)) :=
  match keys with
  | [] => Ok []
  | k :: keys' =>
      let* v := of_option KeyError (tally_get d (Some k)) in
      let* rest := lines_of d keys' in
      Ok ((k, v) :: rest)
  end.

(** [print_sorted_dict]: the lines it prints, as pairs [k:v]. *)
Definition print_sorted_dict (d : list (option string * Z))
  : result (list (string * Z)) :=
  let* keys := string_keys d in
  lines_of d (sorted_keys keys).

(** [audit_cities] and [audit_amenities]: the tally they leave in
    [self.cities] or [self.amenities], and the sorted report. *)
Definition audit_cities (cities : list (option string * Z))
    (doc : list Element)
  : result (list (option string * Z) * list (string * Z)) :=
  let cities := tally_tags "addr:city" cities (get_element doc) in
  let* report := print_sorted_dict cities in
  Ok (cities, report).

Definition audit_amenities (amenities : list (option string * Z))
    (doc : list Element)
  : result (list (option string * Z) * list (string * Z)) :=
  let amenities := tally_tags "amenity" amenities (get_element doc) in
  let* report := print_sorted_dict amenities in
  Ok (amenities, report).

(** What [street_direc_regex], [^\S+\.?], matches at the start of a street:
    its characters up to the first whitespace. *)
Fixpoint first_token (s : string) : string :=
  match s with
  | EmptyString => EmptyString
  | String c s' =>
      if Char.is_space c then EmptyString else String c (first_token s')
  end.

(** The loop of [audit_street_direc]; [search] raises on a missing [v]. *)
Fixpoint street_direc_tags (tags : list Child) (d : list (option string * Z))
  : result (list (option string * Z)) :=
  match tags with
  | [] => Ok d
  | tag :: rest =>
      if key_is (dict_get (c_attrib tag) "k") "addr:street" then
        let* street := of_option TypeError (dict_get (c_attrib tag) "v") in
        let t := first_token street in
        if Str.is_empty t then street_direc_tags rest d
        else street_direc_tags rest (tally_incr d (Some t))
      else street_direc_tags rest d
  end.

Definition audit_street_direc (street_direcs : list (option string * Z))
    (doc : list Element)
  : result (list (option string * Z) * list (string * Z)) :=
  let* street_direcs :=
    street_direc_tags (List.concat (List.map iter_tag (get_element doc)))
      street_direcs in
  let* report := print_sorted_dict street_direcs in
  Ok (street_direcs, report).

(** [name.split(' ')[-1]] for a value that is neither [None] nor empty. *)
Definition last_token (name : option string) : option string :=
  match name with
  | Some s =>
      if Str.is_empty s then name
      else Some (default EmptyString (last (Str.split_blank s)))
  | None => None
  end.

(** The loop of [audit_tags]; [tag.attrib['k']] raises on a missing [k]. *)
Fixpoint audit_tags_loop (tag_name : string) (tags : list Child)
    (tag_values : gset (option string)) : result (gset (option string)) :=
  match tags with
  | [] => Ok tag_values
  | tag :: rest =>
      let* k := of_option KeyError (dict_get (c_attrib tag) "k") in
      if String.eqb k tag_name then
        audit_tags_loop tag_name rest
          ({[ last_token (dict_get (c_attrib tag) "v") ]} ∪ tag_values)
      else audit_tags_loop tag_name rest tag_values
  end.

Definition audit_tags (tag_name : string) (doc : list Element)
  : result (gset (option string)) :=
  audit_tags_loop tag_name
    (List.concat (List.map iter_tag (get_element doc))) ∅.

(** [get_osm_stats]: the three counters it prints. *)
Fixpoint osm_stats_loop (elements : list Element) (counts : list (string * Z))
  : result (list (string * Z)) :=
  match elements with
  | [] => Ok counts
  | element :: rest =>
      let* n := of_option KeyError (dict_get counts (e_tag element)) in
      osm_stats_loop rest (dict_set counts (e_tag element) (n + 1))
  end.

Definition get_osm_stats (doc : list Element) : result (list (string * Z)) :=
  osm_stats_loop (get_element doc)
    [("node", 0); ("way", 0); ("relation", 0)].

End Audit.

(** ** Statements of the specification that the code is compared with *)

(** The specification's street-type pass puts the canonical form of a
    matching token other than [hwy] immediately before the last token. *)
Definition reinserted_before_last (street_elements : list string) : Prop :=
  forall (i : nat) (tok c : string) (out : list string),
    street_elements !! i = Some tok ->
    Str.lower tok <> "hwy" ->
    dict_get street_types_d (Str.lower tok) = Some c ->
    street_type_pass street_elements = Ok out ->
    out !! (length out - 2)%nat = Some c.

(** The abbreviation table as the specification writes it, every key in
    lower case. *)
Definition claimed_types_d : list (string * string) :=
  [("blvd", "Boulevard"); ("st", "Street"); ("ave", "Avenue");
   ("hwy", "Highway"); ("ih", "Interstate Highway"); ("cir", "Circle");
   ("ct", "Court"); ("cv", "Cove"); ("dr", "Drive"); ("ln", "Lane");
   ("rd", "Road"); ("pkwy", "Parkway")].

(** The street-type pass in the specification's words, with the position
    amended: every token is compared in lower case with the table; [hwy] is
    replaced in place and ends the scan; any other matching token is taken
    out and its canonical form put at the last position.  The result is the
    first list followed by the second. *)
Fixpoint scan_with (table : list (string * string))
    (street_elements : list string) : list string * list string :=
  match street_elements with
  | [] => ([], [])
  | tok :: rest =>
      match dict_get table (Str.lower tok) with
      | None =>
          let (kept, moved) := scan_with table rest in (tok :: kept, moved)
      | Some c =>
          if String.eqb (Str.lower tok) "hwy" then (c :: rest, [])
          else let (kept, moved) := scan_with table rest in
               (kept, c :: moved)
      end
  end.

Definition amended_type_pass (street_elements : list string) : list string :=
  fst (scan_with claimed_types_d street_elements)
  ++ snd (scan_with claimed_types_d street_elements).

(** No token is [ih] in any case. *)
Definition no_ih (street_elements : list string) : bool :=
  List.forallb (fun tok => negb (String.eqb (Str.lower tok) "ih"))
    street_elements.

Definition match_with (table : list (string * string)) (tok : string)
  : bool :=
  match dict_get table (Str.lower tok) with
  | Some _ => true
  | None => false
  end.

(** No street-type token directly follows one that is taken out. *)
Fixpoint separated_with (table : list (string * string))
    (street_elements : list string) : bool :=
  match street_elements with
  | [] => true
  | tok :: rest =>
      match rest with
      | next :: _ =>
          negb (match_with table tok
                && negb (String.eqb (Str.lower tok) "hwy")
                && match_with table next)
      | [] => true
      end
      && separated_with table rest
  end.

Definition separated : list string -> bool :=
  separated_with claimed_types_d.

(** Normalising the value [shape_streetname] returned returns it again. *)
Definition idempotent_at (street : string) : Prop :=
  forall (w w1 : Wrangler) (s1 : string),
    shape_streetname street w = Ok (s1, w1) ->
    exists w2, shape_streetname s1 w1 = Ok (s1, w2).

(** Whether a coordinate is a well-formed numeric string. *)
Definition well_formed (float_ok : string -> bool) (x : option string) : bool :=
  match x with
  | Some s => float_ok s
  | None => false
  end.

(** The specification's postal-code rule for a coordinate that is not a
    well-formed numeric string: absent, and no line written. *)
Definition absent_without_log (float_ok : string -> bool)
    (geocode : string -> string -> result (option Z))
    (zcode : string) (lat lon : option string) (w : Wrangler) : Prop :=
  well_formed float_ok lat && well_formed float_ok lon = false ->
  shape_zipcode float_ok geocode zcode lat lon w = Ok (VNone, w).

(** ** Street strings that are already normalised *)

Module Normal.

Definition starts_with (p : ascii -> bool) (s : string) : bool :=
  match s with
  | EmptyString => false
  | String c _ => p c
  end.


(** No [#] is followed by a word character. *)
Fixpoint no_hash_word (s : string) : bool :=
  match s with
  | EmptyString => true
  | String c s' =>
      negb (Char.is_hash c && starts_with Char.is_word s')
      && no_hash_word s'
  end.




Definition is_street_type (t : string) : bool :=
  in_list (Str.lower t)
    ["blvd"; "st"; "ave"; "hwy"; "cir"; "ct"; "cv"; "dr"; "ln"; "rd";
     "pkwy"].



End Normal.

(** ** Example documents *)

Module Examples.

Definition tag (k v : string) : Child := mkChild "tag" [("k", k); ("v", v)].

(** [<node id="1" lat="30.27" lon="-97.74"><tag k="amenity"
    v="restaurant"/></node>] *)
Definition restaurant : Element :=
  mkElement "node" [("id", "1"); ("lat", "30.27"); ("lon", "-97.74")]
    [tag "amenity" "restaurant"].

(** [<node id="2"><tag k="population" v="100"/></node>] *)
Definition unnamed_place : Element :=
  mkElement "node" [("id", "2")] [tag "population" "100"].

(** [<node id="3"><tag k="name" v="Austin"/><tag k="population"
    v="790390"/></node>] *)
Definition austin : Element :=
  mkElement "node" [("id", "3")]
    [tag "name" "Austin"; tag "population" "790390"].

(** The reference table with the one row [Austin, 790390, 931830]. *)
Definition table : gmap string (string * string) :=
  {[ "Austin" := ("790390", "931830") ]}.

End Examples.

(** ** Notions the further properties are stated with *)

(** The test of [shape_city]: the name without its blanks occurs in the
    city without its whitespace, whatever the case of the letters. *)
Definition occurs (name city : string) : bool :=
  Str.containsb
    (Str.lower (Str.filter (fun c => negb (Char.is_blank c)) name))
    (Str.lower (Str.remove_space city)).

(** The row [process_data] hands to the node writer for an element. *)
Definition node_row (element : Element) : list (string * pyval) :=
  List.map (fun kv => (fst kv, VStr (snd kv))) (e_attrib element).

(** The elements whose node row the writer accepts, and their [tag]
    children: the tags [process_data] visits. *)
Definition serialized (elements : list Element) : list Element :=
  List.filter (fun e => writable node_fieldnames (node_row e)) elements.

Definition visited_tags (elements : list Element) : list Child :=
  List.concat (List.map findall_tag (serialized elements)).

(** A tag row that carries the [id] of [element] and the key of one of its
    [tag] children. *)
Definition row_of (element : Element) (row : list (string * pyval)) : Prop :=
  (exists id, dict_get (e_attrib element) "id" = Some id
              /\ dict_get row "id" = Some (VStr id))
  /\ exists child, child ∈ findall_tag element
                   /\ dict_get row "k"
                      = VStr <$> dict_get (c_attrib child) "k".

(** Whether [process_data] hands a tag with this key to a shape function. *)
Definition governed_key (k : option string) : bool :=
  key_is k "addr:postcode" || key_is k "addr:city"
  || key_is k "addr:street" || key_is k "population".

Definition has_value (child : Child) : bool :=
  match dict_get (c_attrib child) "v" with
  | Some _ => true
  | None => false
  end.

(** The shape functions write to the text files only. *)
Definition same_tables (w w' : Wrangler) : Prop :=
  pop_est w' = pop_est w /\ node_rows w' = node_rows w
  /\ tag_rows w' = tag_rows w.

Definition same_logs (w w' : Wrangler) : Prop :=
  cleaned_streets w' = cleaned_streets w
  /\ cleaned_cities w' = cleaned_cities w
  /\ cleaned_zipcodes w' = cleaned_zipcodes w
  /\ cleaned_population w' = cleaned_population w.

(** The triple [audit_population] is meant to give for an element with a
    name and a population. *)
Definition population_triple (pop_est : gmap string (string * string))
    (element : Element) : option (pyval * string * pyval) :=
  name_tag ← head (findall_tag_k "name" element);
  name ← dict_get (c_attrib name_tag) "v";
  popul_tag ← head (findall_tag_k "population" element);
  popul ← dict_get (c_attrib popul_tag) "v";
  Some (VStr name, popul,
        VStr match pop_est !! name with
             | Some (_, estimate) => estimate
             | None => popul
             end).

Definition has_population (element : Element) : bool :=
  match findall_tag_k "population" element with
  | [] => false
  | _ :: _ => true
  end.

(** How many tags with the key [key] have the value [x]. *)
Definition occurrences (key : string) (x : option string)
    (tags : list Child) : Z :=
  Z.of_nat
    (length
       (List.filter
          (fun tag => key_is (dict_get (c_attrib tag) "k") key
                      && bool_decide (dict_get (c_attrib tag) "v" = x))
          tags)).

(** The order of [print_sorted_dict]: by the lower-cased key. *)
Definition key_le (a b : string) : Prop :=
  String.leb (Str.lower a) (Str.lower b) = true.


(** ** [get_popul_est], of both classes *)

(** The loop [for row in reader] over the rows the csv reader yields, each a
    list of fields; both subscripts of the assignment raise on a short
    row. *)
Fixpoint get_popul_est (rows : list (list string))
    (pop_est : gmap string (string * string))
  : result (gmap string (string * string)) :=
  match rows with
  | [] => Ok pop_est
  | row :: rest =>
      let* census := PyList.get row 2 in
      let* estimate := PyList.get row 4 in
      let* name := PyList.get row 1 in
      get_popul_est rest (<[name := (census, estimate)]> pop_est)
  end.

(** The entry a row of five fields or more stands for. *)
Definition row_entry (row : list string) : option (string * (string * string)) :=
  match row with
  | _ :: name :: census :: _ :: estimate :: _ =>
      Some (name, (census, estimate))
  | _ => None
  end.

(** The rows whose second field is [name]. *)
Definition rows_named (name : string) (rows : list (list string))
  : list (list string) :=
  List.filter (fun row => match row_entry row with
                          | Some (name', _) => String.eqb name' name
                          | None => false
                          end) rows.

(** ** Well-formed street strings *)











(** * Theorems *)

(** ** Results and lists *)

Lemma position_in_range {A : Type} (l : list A) (i : nat) :
  (i < length l)%nat -> PyList.position l (Z.of_nat i) = Some i.
Proof.
  intros Hi. unfold PyList.position, PyList.len.
  destruct (Z.ltb_spec (Z.of_nat i) 0) as [Hneg | _]; [lia |].
  destruct (Z.leb_spec 0 (Z.of_nat i)) as [_ | Hneg]; [| lia].
  destruct (Z.ltb_spec (Z.of_nat i) (Z.of_nat (length l))) as [_ | Hge];
    [| lia].
  simpl. by rewrite Nat2Z.id.
Qed.

Lemma get_lookup {A : Type} (l : list A) (i : nat) (x : A) :
  l !! i = Some x -> PyList.get l (Z.of_nat i) = Ok x.
Proof.
  intros Hx. unfold PyList.get.
  rewrite position_in_range by (by eapply lookup_lt_Some).
  by rewrite Hx.
Qed.

Lemma pop_lookup {A : Type} (l : list A) (i : nat) (x : A) :
  l !! i = Some x ->
  PyList.pop l (Z.of_nat i) = Ok (x, take i l ++ drop (S i) l).
Proof.
  intros Hx. unfold PyList.pop.
  rewrite position_in_range by (by eapply lookup_lt_Some).
  by rewrite Hx.
Qed.

Lemma set_lookup {A : Type} (l : list A) (i : nat) (x y : A) :
  l !! i = Some x -> PyList.set l (Z.of_nat i) y = Ok (<[i:=y]> l).
Proof.
  intros Hx. unfold PyList.set.
  by rewrite position_in_range by (by eapply lookup_lt_Some).
Qed.

(** Inserting at the old last index, after an element was popped, appends. *)
Lemma insert_after_pop {A : Type} (l : list A) (i : nat) (x c : A) :
  l !! i = Some x ->
  PyList.insert (take i l ++ drop (S i) l) (PyList.len l - 1) c
  = take i l ++ drop (S i) l ++ [c].
Proof.
  intros Hx. pose proof (lookup_lt_Some _ _ _ Hx) as Hi.
  unfold PyList.insert, PyList.len.
  assert (Hlen : length (take i l ++ drop (S i) l) = (length l - 1)%nat).
  { rewrite length_app, length_take, length_drop. lia. }
  rewrite Hlen.
  destruct (Z.ltb_spec (Z.of_nat (length l) - 1) 0) as [Hneg | _]; [lia |].
  replace (Z.to_nat (Z.min (Z.of_nat (length l) - 1)
                       (Z.of_nat (length l - 1))))
    with (length (take i l ++ drop (S i) l)) by lia.
  rewrite firstn_all, drop_all. by rewrite <- app_assoc.
Qed.


(** ** The street-type table *)

Lemma dict_get_In {V : Type} (d : list (string * V)) (k : string) (v : V) :
  dict_get d k = Some v -> In (k, v) d.
Proof.
  induction d as [| [k' v'] d IH]; simpl; [discriminate |].
  destruct (String.eqb_spec k' k) as [-> | _].
  - intros [= ->]. by left.
  - intros H. right. by apply IH.
Qed.

(** Lower-casing never yields an upper-case letter. *)
Lemma lower_char_not_upper (c : ascii) : Char.is_upper (Char.lower c) = false.
Proof. by destruct c as [[] [] [] [] [] [] [] []]. Qed.

(** The key ['IH'] is spelt in capitals, and no lower-cased token equals it. *)
Lemma lower_not_IH (t : string) : Str.lower t <> "IH".
Proof.
  destruct t as [| c t]; [discriminate |].
  simpl. intros [= Hc _].
  pose proof (lower_char_not_upper c) as Hu. by rewrite Hc in Hu.
Qed.

(** What a lower-cased token finds in [street_types_d] is one of the eleven
    entries with a lower-case key, and no canonical form is itself a key. *)
Lemma street_type_found (t c : string) :
  dict_get street_types_d (Str.lower t) = Some c ->
  Normal.is_street_type t = true
  /\ dict_get street_types_d (Str.lower c) = None.
Proof.
  intros H. apply dict_get_In in H. unfold Normal.is_street_type.
  simpl in H.
  repeat (destruct H as [[= Hk <-] | H];
          [first [ by destruct (lower_not_IH t)
                 | rewrite <- Hk; by split ] |]).
  destruct H.
Qed.


(** ** The street-type loop *)

(** Indices whose tokens are in no table entry leave the list as it is. *)
Lemma type_loop_skip (idxs : list nat) (rest : list Z) (els : list string) :
  (forall i, i ∈ idxs ->
     exists t, els !! i = Some t
               /\ dict_get street_types_d (Str.lower t) = None) ->
  type_loop (List.map Z.of_nat idxs ++ rest) els = type_loop rest els.
Proof.
  induction idxs as [| i idxs IH]; intros H; [done |].
  destruct (H i) as (t & Ht & Hnone); [by left |].
  cbn [List.map app type_loop]. rewrite (get_lookup _ _ _ Ht).
  cbn [rbind]. rewrite Hnone.
  apply IH. intros j Hj. apply H. by right.
Qed.

Lemma type_loop_no_match (idxs : list nat) (els : list string) :
  (forall i, i ∈ idxs -> (i < length els)%nat) ->
  (forall t, t ∈ els -> dict_get street_types_d (Str.lower t) = None) ->
  type_loop (List.map Z.of_nat idxs) els = Ok els.
Proof.
  intros Hidx Hels.
  rewrite <- (app_nil_r (List.map Z.of_nat idxs)), type_loop_skip; [done |].
  intros i Hi. destruct (lookup_lt_is_Some_2 els i (Hidx i Hi)) as [t Ht].
  exists t. split; [done |]. apply Hels. by eapply list_elem_of_lookup_2.
Qed.

Lemma range_split (n i : nat) :
  (i < n)%nat ->
  PyList.range (Z.of_nat n)
  = List.map Z.of_nat (seq 0 i)
    ++ Z.of_nat i :: List.map Z.of_nat (seq (S i) (n - S i)).
Proof.
  intros Hi. unfold PyList.range. rewrite Nat2Z.id.
  replace n with (i + S (n - S i))%nat at 1 by lia.
  rewrite seq_app, List.map_app. simpl. reflexivity.
Qed.

(** ** The street-type pass, as amended *)

Lemma claimed_lookup (tok : string) :
  String.eqb (Str.lower tok) "ih" = false ->
  dict_get claimed_types_d (Str.lower tok)
  = dict_get street_types_d (Str.lower tok).
Proof.
  intros Hih. rewrite String.eqb_sym in Hih.
  assert (HIH : String.eqb "IH" (Str.lower tok) = false).
  { apply String.eqb_neq. intros H. by apply (lower_not_IH tok). }
  unfold claimed_types_d, street_types_d. cbn [dict_get].
  by rewrite Hih, HIH.
Qed.

Lemma middle_take {A : Type} (kept : list A) (x : A) (rest : list A) :
  take (length kept) (kept ++ x :: rest) = kept.
Proof. induction kept as [| y kept IH]; [done |]. cbn. by rewrite IH. Qed.

Lemma middle_drop {A : Type} (kept : list A) (x : A) (rest : list A) :
  drop (S (length kept)) (kept ++ x :: rest) = rest.
Proof. induction kept as [| y kept IH]; [done |]. exact IH. Qed.

Lemma middle_insert {A : Type} (kept : list A) (x y : A) (rest : list A) :
  <[length kept := y]> (kept ++ x :: rest) = kept ++ y :: rest.
Proof.
  induction kept as [| z kept IH]; [done |]. simpl. f_equal. exact IH.
Qed.

Ltac same_list :=
  repeat (cbn [app]; rewrite <- ?app_assoc); reflexivity.

(** The state of the loop when its index stands at the first of the tokens
    still to be scanned: before them the tokens that stay, after them the
    canonical forms moved so far. *)
Lemma type_loop_scan (n : nat) :
  forall remaining kept moved : list string,
    (length remaining <= n)%nat ->
    (forall t, t ∈ kept ++ moved ->
       dict_get street_types_d (Str.lower t) = None) ->
    separated_with street_types_d remaining = true ->
    type_loop
      (List.map Z.of_nat
         (seq (length kept) (length remaining + length moved)))
      (kept ++ remaining ++ moved)
    = Ok (kept ++ fst (scan_with street_types_d remaining)
          ++ moved ++ snd (scan_with street_types_d remaining)).
Proof.
  induction n as [| n IH]; intros remaining kept moved Hn Hquiet Hsep.
  { destruct remaining; [| simpl in Hn; lia].
    cbn [app length Nat.add scan_with fst snd]. rewrite app_nil_r.
    apply type_loop_no_match; [| exact Hquiet].
    intros i Hi. apply list_elem_of_In, in_seq in Hi.
    rewrite length_app. lia. }
  destruct remaining as [| tok rest].
  { cbn [app length Nat.add scan_with fst snd]. rewrite app_nil_r.
    apply type_loop_no_match; [| exact Hquiet].
    intros i Hi. apply list_elem_of_In, in_seq in Hi.
    rewrite length_app. lia. }
  assert (Hget : (kept ++ (tok :: rest) ++ moved) !! length kept = Some tok)
    by (by apply list_lookup_middle).
  cbn [length Nat.add seq List.map type_loop scan_with].
  rewrite (get_lookup _ _ _ Hget). cbn [rbind].
  destruct (dict_get street_types_d (Str.lower tok)) as [c |] eqn:Hc.
  - destruct (String.eqb (Str.lower tok) "hwy") eqn:Hhwy.
    + (* replaced in place, and the scan stops *)
      cbn [of_option rbind fst snd]. rewrite (set_lookup _ _ _ _ Hget).
      cbn [app]. rewrite middle_insert.
      by rewrite app_nil_r.
    + (* taken out, its canonical form appended *)
      rewrite (pop_lookup _ _ _ Hget). cbn [rbind]. rewrite Hc.
      cbn [of_option rbind]. rewrite (insert_after_pop _ _ _ c Hget).
      cbn [app]. rewrite middle_take, middle_drop.
      assert (Hc' : dict_get street_types_d (Str.lower c) = None)
        by (by apply street_type_found in Hc as [_ Hc]).
      assert (Hquiet' : forall t, t ∈ kept ++ moved ++ [c] ->
                dict_get street_types_d (Str.lower t) = None).
      { intros t. rewrite app_assoc.
        intros [Ht | ->%list_elem_of_singleton]%elem_of_app;
          [by apply Hquiet | exact Hc']. }
      destruct rest as [| next rest'].
      * cbn [app scan_with fst snd length Nat.add].
        apply type_loop_no_match; [| exact Hquiet'].
        intros i Hi. apply list_elem_of_In, in_seq in Hi.
        rewrite !length_app. cbn [length]. lia.
      * (* the token after it is passed over; it is no street type *)
        cbn [separated_with] in Hsep.
        apply andb_prop in Hsep as [Hnext Hsep].
        assert (Hsep' : separated_with street_types_d rest' = true).
        { destruct rest'; [done |]. by apply andb_prop in Hsep as [_ Hsep]. }
        clear Hsep.
        apply negb_true_iff in Hnext. unfold match_with in Hnext.
        rewrite Hc, Hhwy in Hnext. cbn [negb andb] in Hnext.
        destruct (dict_get street_types_d (Str.lower next)) eqn:Hnone;
          [discriminate |].
        cbn [scan_with]. rewrite Hnone.
        destruct (scan_with street_types_d rest') as [kept' moved'] eqn:Hscan.
        cbn [fst snd length Nat.add].
        specialize (IH rest' (kept ++ [next]) (moved ++ [c])).
        rewrite Hscan in IH. cbn [fst snd] in IH.
        rewrite !length_app in IH. cbn [length] in IH.
        replace (length kept + 1)%nat with (S (length kept)) in IH by lia.
        replace (length rest' + (length moved + 1))%nat
          with (S (length rest' + length moved)) in IH by lia.
        match goal with
        | |- type_loop _ ?L = Ok ?R =>
            replace L with ((kept ++ [next]) ++ rest' ++ moved ++ [c])
              by same_list;
            replace R
              with ((kept ++ [next]) ++ kept' ++ (moved ++ [c]) ++ moved')
              by same_list
        end.
        apply IH; [cbn [length] in Hn; lia | | exact Hsep'].
        intros t. rewrite <- app_assoc.
        intros [Ht | [->%list_elem_of_singleton | Ht]%elem_of_app]%elem_of_app.
        -- apply Hquiet, elem_of_app. by left.
        -- exact Hnone.
        -- apply Hquiet'. apply elem_of_app. by right.
  - (* no street type: the token stays *)
    cbn [separated_with] in Hsep.
    assert (Hsep' : separated_with street_types_d rest = true).
    { destruct rest; [done |]. by apply andb_prop in Hsep as [_ Hsep]. }
    destruct (scan_with street_types_d rest) as [kept' moved'] eqn:Hscan.
    cbn [fst snd].
    specialize (IH rest (kept ++ [tok]) moved).
    rewrite Hscan in IH. cbn [fst snd] in IH.
    rewrite length_app in IH. cbn [length] in IH.
    replace (length kept + 1)%nat with (S (length kept)) in IH by lia.
    match goal with
    | |- type_loop _ ?L = Ok ?R =>
        replace L with ((kept ++ [tok]) ++ rest ++ moved) by same_list;
        replace R with ((kept ++ [tok]) ++ kept' ++ moved ++ moved')
          by same_list
    end.
    apply IH; [cbn [length] in Hn; lia | | exact Hsep'].
    intros t. rewrite <- app_assoc.
    intros [Ht | [->%list_elem_of_singleton | Ht]%elem_of_app]%elem_of_app.
    + apply Hquiet, elem_of_app. by left.
    + exact Hc.
    + apply Hquiet, elem_of_app. by right.
Qed.

(** What the loop of the code returns, in terms of its own table. *)
Lemma street_type_pass_code (street_elements : list string) :
  separated_with street_types_d street_elements = true ->
  street_type_pass street_elements
  = Ok (fst (scan_with street_types_d street_elements)
        ++ snd (scan_with street_types_d street_elements)).
Proof.
  intros Hsep. unfold street_type_pass.
  pose proof (type_loop_scan (length street_elements) street_elements [] []
                ltac:(lia) ltac:(intros t H; by apply elem_of_nil in H)
                Hsep) as H.
  cbn [app length] in H. rewrite Nat.add_0_r, app_nil_r in H.
  unfold PyList.range, PyList.len. by rewrite Nat2Z.id.
Qed.

(** Without a token [ih] the two tables give the same scan. *)
Lemma scan_claimed (street_elements : list string) :
  no_ih street_elements = true ->
  scan_with claimed_types_d street_elements
  = scan_with street_types_d street_elements
  /\ separated_with claimed_types_d street_elements
     = separated_with street_types_d street_elements.
Proof.
  induction street_elements as [| tok rest IH]; [done |].
  cbn [no_ih List.forallb]. intros [Htok Hih]%andb_prop.
  apply negb_true_iff in Htok. destruct (IH Hih) as [IHscan IHsep].
  split.
  - cbn [scan_with]. by rewrite (claimed_lookup tok Htok), IHscan.
  - cbn [separated_with]. rewrite IHsep. unfold match_with.
    rewrite (claimed_lookup tok Htok).
    destruct rest as [| next rest']; [done |].
    cbn [no_ih List.forallb] in Hih. apply andb_prop in Hih as [Hnext _].
    apply negb_true_iff in Hnext. by rewrite (claimed_lookup next Hnext).
Qed.

Lemma street_type_pass_scan (street_elements : list string) :
  no_ih street_elements = true -> separated street_elements = true ->
  street_type_pass street_elements = Ok (amended_type_pass street_elements).
Proof.
  intros Hih Hsep. unfold amended_type_pass, separated in *.
  destruct (scan_claimed street_elements Hih) as [-> Hs]. rewrite Hs in Hsep.
  by apply street_type_pass_code.
Qed.

(** C1 (as amended).  On a token list in which no token is [ih] and no
    street-type token directly follows one that is taken out, the street-type
    pass scans all tokens, in any case, against the abbreviation table; a
    token matching [hwy] is replaced in place and the scan stops; every other
    matching token is removed and its canonical form re-inserted at the last
    position, after the last token. *)
Theorem street_type_pass_amended (street_elements : list string) :
  no_ih street_elements = true -> separated street_elements = true ->
  street_type_pass street_elements = Ok (amended_type_pass street_elements).
Proof. apply street_type_pass_scan. Qed.

(** The amended C1 at the tokens of [Old Dr Main St Apt]. *)
Lemma street_type_pass_amended_witness :
  street_type_pass ["Old"; "Dr"; "Main"; "St"; "Apt"]
  = Ok ["Old"; "Main"; "Apt"; "Drive"; "Street"].
Proof.
  apply (street_type_pass_amended ["Old"; "Dr"; "Main"; "St"; "Apt"]);
    reflexivity.
Defined.

(** C1 (counterexample).  In [Main St Apt] the canonical form [Street] ends
    up last, after [Apt], and not immediately before the last token. *)
Lemma street_type_not_before_last :
  ~ reinserted_before_last ["Main"; "St"; "Apt"].
Proof.
  intros H.
  specialize (H 1%nat "St" "Street" ["Main"; "Apt"; "Street"]
                eq_refl ltac:(discriminate) eq_refl eq_refl).
  discriminate H.
Qed.

(** ** [shape_streetname] on given inputs *)

(** C2.  ["15000 W. William Cannon Blvd #300"] is normalised to
    ["West William Cannon Boulevard"] and ["123 N Lamar"] to
    ["North Lamar"]: the house number is dropped and the direction is
    expanded at the front. *)
Theorem shape_streetname_examples (w : Wrangler) :
  shape_streetname "15000 W. William Cannon Blvd #300" w
  = Ok ("West William Cannon Boulevard",
        write_street w ("15000 W. William Cannon Blvd #300",
                        "West William Cannon Boulevard"))
  /\ shape_streetname "123 N Lamar" w
     = Ok ("North Lamar", write_street w ("123 N Lamar", "North Lamar")).
Proof. split; reflexivity. Qed.

(** C10.  When nothing is left of the street once the unit marker and the
    house number are gone, the direction loop reads [street_elements[0]] of
    an empty list and [shape_streetname] ends in an [IndexError]. *)
Theorem shape_streetname_index_error (street : string) (w : Wrangler) :
  street_tokens street = Ok [] ->
  shape_streetname street w = Raise IndexError.
Proof.
  intros H. unfold shape_streetname. rewrite H. reflexivity.
Qed.

(** C10 at the input ["123"]. *)
Lemma shape_streetname_index_error_witness :
  street_tokens "123" = Ok []
  /\ shape_streetname "123" (new_wrangler ∅) = Raise IndexError.
Proof.
  split; [reflexivity |].
  apply (shape_streetname_index_error "123" (new_wrangler ∅)).
  reflexivity.
Defined.

(** C8 (the code at the failing input).  ["Lamar #300"] is returned as
    ["Lamar"], which differs from the raw value, and no line is written:
    the comparison is with the value after the unit marker was removed. *)
Theorem shape_streetname_unlogged_change (w : Wrangler) :
  shape_streetname "Lamar #300" w = Ok ("Lamar", w)
  /\ "Lamar" <> "Lamar #300".
Proof. split; [reflexivity | discriminate]. Qed.

(** The line is written exactly when the returned value differs from the
    street as it was after line 198, not from the raw value. *)
Lemma shape_streetname_log (street new_street : string) (w w' : Wrangler) :
  shape_streetname street w = Ok (new_street, w') ->
  w' = if String.eqb (Str.strip Char.is_space (Str.sub_hash street)) new_street
       then w
       else write_street w (street, new_street).
Proof.
  unfold shape_streetname.
  destruct (street_tokens street) as [toks |]; [| discriminate].
  cbn [rbind].
  destruct (direction_loop _ toks) as [toks1 |]; [| discriminate].
  cbn [rbind].
  destruct (street_type_pass toks1) as [toks2 |]; [| discriminate].
  cbn [rbind].
  destruct (String.eqb _ _) eqn:E; cbn [negb]; intros [= <- <-];
    by rewrite E.
Qed.


(** ** String functions that leave their argument as it is *)

Lemma sub_hash_id (s : string) :
  Normal.no_hash_word s = true -> Str.sub_hash s = s.
Proof.
  unfold Str.sub_hash. induction s as [| c s IH]; [done |].
  cbn [Normal.no_hash_word Str.sub_hash_go andb].
  intros [Hc Hs]%andb_prop. destruct s as [| d s]; [done |].
  cbn [Normal.starts_with] in Hc. apply negb_true_iff in Hc. rewrite Hc.
  f_equal. by apply IH.
Qed.






Lemma split_blank_nonempty (s : string) : Str.split_blank s <> [].
Proof.
  destruct s as [| c s]; [done |]. simpl.
  destruct (Char.is_blank c); [done |]. by destruct (Str.split_blank s).
Qed.





Lemma forallb_elem {A : Type} (p : A -> bool) (l : list A) (x : A) :
  List.forallb p l = true -> x ∈ l -> p x = true.
Proof.
  intros H Hx. apply list_elem_of_In in Hx.
  by apply (proj1 (List.forallb_forall p l) H).
Qed.



(** ** Normalised street strings *)




(** ** Postal codes *)

(** C6 (counterexample).  With no coordinates and no five-digit run that
    starts with [7], the result is absent and a line is written all the
    same. *)
Lemma shape_zipcode_logs_absent :
  ~ absent_without_log (fun _ => true) (fun _ _ => Ok None)
      "00000" None None (new_wrangler ∅).
Proof.
  intros H. specialize (H eq_refl). discriminate H.
Qed.

(** C6 (as amended).  When the raw value has no five-digit run to return,
    a line with the original and the chosen value is written whatever the
    fallback yields: with a coordinate missing the result is absent and the
    geocoder is not asked, and with two well-formed coordinates the result
    is what the geocoder answered, a postal code or absent. *)
Theorem shape_zipcode_fallback
    (float_ok : string -> bool)
    (geocode : string -> string -> result (option Z))
    (zcode : string) (lat lon : option string) (w : Wrangler) :
  regional (findall_d5 (Str.ascii_only zcode)) = None ->
  ((lat = None \/ lon = None) ->
     shape_zipcode float_ok geocode zcode lat lon w
     = Ok (VNone, write_zipcode w (Str.ascii_only zcode, VNone)))
  /\ (forall la lo answer,
        lat = Some la -> lon = Some lo ->
        float_ok la = true -> float_ok lo = true ->
        geocode la lo = Ok answer ->
        let chosen := match answer with
                      | Some z => VInt z
                      | None => VNone
                      end in
        shape_zipcode float_ok geocode zcode lat lon w
        = Ok (chosen, write_zipcode w (Str.ascii_only zcode, chosen))).
Proof.
  intros Hslow. unfold shape_zipcode. rewrite Hslow. split.
  - intros [-> | ->]; [reflexivity |]. by destruct lat.
  - intros la lo answer -> -> Hla Hlo Hgeo. cbv zeta.
    unfold get_zcode. rewrite Hla, Hlo. cbn [negb]. rewrite Hgeo.
    by destruct answer.
Qed.

(** The amended C6 for the value ["00000"]: without a latitude, and with
    the coordinates of a point the geocoder knows nothing about. *)
Lemma shape_zipcode_fallback_witness :
  shape_zipcode (fun _ => true) (fun _ _ => Raise RequestError)
    "00000" None (Some "-97.74") (new_wrangler ∅)
  = Ok (VNone, write_zipcode (new_wrangler ∅) ("00000", VNone))
  /\ shape_zipcode (fun _ => true) (fun _ _ => Ok None)
       "00000" (Some "30.27") (Some "-97.74") (new_wrangler ∅)
     = Ok (VNone, write_zipcode (new_wrangler ∅) ("00000", VNone)).
Proof.
  split.
  - apply (shape_zipcode_fallback (fun _ => true)
             (fun _ _ => Raise RequestError) "00000" None (Some "-97.74")
             (new_wrangler ∅) eq_refl).
    by left.
  - exact (proj2 (shape_zipcode_fallback (fun _ => true) (fun _ _ => Ok None)
                    "00000" (Some "30.27") (Some "-97.74") (new_wrangler ∅)
                    eq_refl)
             "30.27" "-97.74" None eq_refl eq_refl eq_refl eq_refl eq_refl).
Defined.

(** The first branch does not look at the coordinates. *)
Lemma shape_zipcode_regional
    (float_ok : string -> bool)
    (geocode : string -> string -> result (option Z))
    (zcode m : string) (lat lon : option string) (w : Wrangler) :
  regional (findall_d5 (Str.ascii_only zcode)) = Some m ->
  shape_zipcode float_ok geocode zcode lat lon w
  = Ok (VStr m, write_zipcode w (Str.ascii_only zcode, VStr m)).
Proof. intros H. unfold shape_zipcode. by rewrite H. Qed.

(** ** Population figures *)

(** C4 (the code at the failing input).  [Austin] is in the reference
    table, with the estimate [931830]; the lookup is made with the literal
    key ['name'], finds nothing, and the parsed figure comes back with no
    line written. *)
Theorem shape_population_ignores_table :
  Examples.table !! "Austin" = Some ("790390", "931830")
  /\ shape_population "Austin" "790390" (new_wrangler Examples.table)
     = Ok (VInt 790390, new_wrangler Examples.table).
Proof. split; vm_compute; reflexivity. Qed.

(** What [shape_population] returns never depends on the place name. *)
Lemma shape_population_any_name (name name' popul : string) (w : Wrangler) :
  fst <$> (match shape_population name popul w with
           | Ok r => Some r
           | Raise _ => None
           end)
  = fst <$> (match shape_population name' popul w with
             | Ok r => Some r
             | Raise _ => None
             end).
Proof.
  unfold shape_population. destruct (py_int popul) as [n | e]; [| done].
  cbn [rbind].
  by destruct (differs_from_int _ n).
Qed.

(** ** [process_data] *)

(** C3 (the code at the failing input).  The one tag of the document has
    the key [amenity], which no shape function governs; its row is written
    with the value it had, and the counter of corrected tags is 1. *)
Theorem process_data_counts_untouched_tag
    (float_ok : string -> bool)
    (geocode : string -> string -> result (option Z)) (w : Wrangler) :
  process_data float_ok geocode [Examples.restaurant] w
  = Ok (mkCounts 0 1 1,
        write_tag_row
          (write_node_row (reset_data_files w)
             [("id", VStr "1"); ("lat", VStr "30.27");
              ("lon", VStr "-97.74")])
          [("k", VStr "amenity"); ("v", VStr "restaurant");
           ("id", VStr "1")]).
Proof. reflexivity. Qed.

(** C5 (the code at the failing input).  A [population] tag on a node with
    no [name] tag ends the run in an [IndexError]. *)
Theorem process_data_raises
    (float_ok : string -> bool)
    (geocode : string -> string -> result (option Z)) (w : Wrangler) :
  process_data float_ok geocode [Examples.unnamed_place] w = Raise IndexError.
Proof. reflexivity. Qed.

(** ** [audit_population] *)

(** C9 (the code at the failing input).  The second element has a
    population and no name; it yields a triple too, with the empty list for
    a name and the estimate left over from the element before it. *)
Theorem audit_population_unnamed :
  Audit.audit_population ∅ [Examples.austin; Examples.unnamed_place]
  = Ok [(VStr "Austin", "790390", VStr "790390");
        (VList [], "100", VStr "790390")].
Proof. reflexivity. Qed.

(** With the unnamed element first, the estimate is read before it was ever
    assigned. *)
Lemma audit_population_unbound :
  Audit.audit_population ∅ [Examples.unnamed_place; Examples.austin]
  = Raise UnboundLocalError.
Proof. reflexivity. Qed.


(** * Further properties of the wrangler *)

(** ** The unit marker *)

Lemma sub_hash_go_start (b : bool) (s : string) :
  Normal.starts_with Char.is_word (Str.sub_hash_go b s) = true ->
  b = false /\ Normal.starts_with Char.is_word s = true.
Proof.
  revert b. induction s as [| c s IH]; intros b; [done |].
  cbn [Str.sub_hash_go].
  destruct (b && Char.is_word c) eqn:Hskip.
  - intros H. by destruct (IH true H).
  - destruct s as [| d s].
    + cbn [Normal.starts_with]. intros Hc. rewrite Hc in Hskip.
      by destruct b.
    + destruct (Char.is_hash c && Char.is_word d).
      * intros H. by destruct (IH true H).
      * cbn [Normal.starts_with]. intros Hc. rewrite Hc in Hskip.
        by destruct b.
Qed.

Lemma sub_hash_go_clean (b : bool) (s : string) :
  Normal.no_hash_word (Str.sub_hash_go b s) = true.
Proof.
  revert b. induction s as [| c s IH]; intros b; [done |].
  cbn [Str.sub_hash_go].
  destruct (b && Char.is_word c); [apply IH |].
  destruct s as [| d s].
  - cbn. by rewrite andb_false_r.
  - destruct (Char.is_hash c && Char.is_word d) eqn:Hm; [apply IH |].
    cbn [Normal.no_hash_word]. rewrite IH, andb_true_r.
    apply negb_true_iff.
    destruct (Normal.starts_with Char.is_word
                (Str.sub_hash_go false (String d s))) eqn:Hw.
    + apply sub_hash_go_start in Hw as [_ Hd].
      cbn [Normal.starts_with] in Hd. rewrite Hd in Hm. exact Hm.
    + apply andb_false_r.
Qed.

(** X1.  What [re.sub("#\w+", "", street)] returns holds no [#] followed
    by a word character, and removing the markers once more changes
    nothing. *)
Theorem sub_hash_removes_markers (s : string) :
  Normal.no_hash_word (Str.sub_hash s) = true
  /\ Str.sub_hash (Str.sub_hash s) = Str.sub_hash s.
Proof.
  assert (H : Normal.no_hash_word (Str.sub_hash s) = true)
    by apply sub_hash_go_clean.
  split; [exact H | by apply sub_hash_id].
Qed.

(** ** The loops of [shape_streetname] never fail on a token *)

Lemma length_py_insert {A : Type} (l : list A) (i : Z) (x : A) :
  length (PyList.insert l i x) = S (length l).
Proof.
  unfold PyList.insert.
  rewrite length_app. cbn [length]. rewrite length_take, length_drop. lia.
Qed.

Lemma pop_in_range {A : Type} (l : list A) (i : nat) :
  (i < length l)%nat ->
  exists x, l !! i = Some x
            /\ PyList.pop l (Z.of_nat i) = Ok (x, take i l ++ drop (S i) l).
Proof.
  intros Hi. destruct (lookup_lt_is_Some_2 l i Hi) as [x Hx].
  exists x. split; [done |]. by apply pop_lookup.
Qed.

Lemma length_popped {A : Type} (l : list A) (i : nat) :
  (i < length l)%nat -> length (take i l ++ drop (S i) l) = pred (length l).
Proof.
  intros Hi. rewrite length_app, length_take, length_drop. lia.
Qed.

Lemma type_loop_length (idxs : list nat) (els : list string) :
  (forall i, i ∈ idxs -> (i < length els)%nat) ->
  exists out, type_loop (List.map Z.of_nat idxs) els = Ok out
              /\ length out = length els.
Proof.
  revert els. induction idxs as [| i idxs IH]; intros els Hidx.
  { by exists els. }
  assert (Hi : (i < length els)%nat) by (apply Hidx; by left).
  assert (Hrest : forall els' : list string, length els' = length els ->
            forall j, j ∈ idxs -> (j < length els')%nat).
  { intros els' Hlen j Hj. rewrite Hlen. apply Hidx. by right. }
  destruct (pop_in_range els i Hi) as (tok & Htok & Hpop).
  cbn [List.map type_loop]. rewrite (get_lookup _ _ _ Htok). cbn [rbind].
  destruct (dict_get street_types_d (Str.lower tok)) as [c |] eqn:Hc.
  - destruct (String.eqb (Str.lower tok) "hwy").
    + cbn [of_option rbind]. rewrite (set_lookup _ _ _ _ Htok).
      eexists. split; [reflexivity |]. apply length_insert.
    + rewrite Hpop. cbn [rbind]. rewrite Hc. cbn [of_option rbind].
      destruct (IH (PyList.insert (take i els ++ drop (S i) els)
                      (PyList.len els - 1) c)) as (out & Hout & Hlen).
      * apply Hrest. rewrite length_py_insert, length_popped by done. lia.
      * exists out. split; [exact Hout |].
        rewrite Hlen, length_py_insert, length_popped by done. lia.
  - apply IH, Hrest. reflexivity.
Qed.

Lemma street_type_pass_total (street_elements : list string) :
  exists out, street_type_pass street_elements = Ok out
              /\ length out = length street_elements.
Proof.
  unfold street_type_pass, PyList.range. apply type_loop_length.
  intros i Hi. apply list_elem_of_In, in_seq in Hi.
  unfold PyList.len in Hi. lia.
Qed.

(** X2.  The street-type pass never raises, and it returns as many tokens
    as it was given. *)
Theorem street_type_pass_length (street_elements : list string) :
  exists out, street_type_pass street_elements = Ok out
              /\ length out = length street_elements.
Proof. exact (street_type_pass_total street_elements). Qed.

Lemma direction_loop_length (t : string) (ts : list string) :
  exists out,
    direction_loop [0; PyList.len (t :: ts) - 1] (t :: ts) = Ok out
    /\ length out = length (t :: ts).
Proof.
  set (els := t :: ts).
  assert (H0 : els !! 0%nat = Some t) by done.
  destruct (lookup_lt_is_Some_2 els (pred (length els))) as [tl Hl];
    [simpl; lia |].
  assert (Hlast : PyList.len els - 1 = Z.of_nat (pred (length els)))
    by (unfold PyList.len; simpl; lia).
  assert (Hlen : forall i x,
            (i < length els)%nat ->
            length (PyList.insert (take i els ++ drop (S i) els) 0 x)
            = length els).
  { intros i x Hi. rewrite length_py_insert, length_popped by done.
    simpl. lia. }
  cbn [direction_loop].
  change (PyList.get els 0) with (Ok t). cbn [rbind].
  change (PyList.pop els 0) with (Ok (t, ts)).
  destruct (dict_get direc_d t) as [d |] eqn:Hd.
  { cbn [rbind]. rewrite Hd. cbn [of_option rbind].
    eexists. split; [reflexivity |]. by rewrite length_py_insert. }
  destruct (in_list (Str.capitalize t) directions).
  { cbn [rbind]. eexists. split; [reflexivity |].
    by rewrite length_py_insert. }
  rewrite Hlast, (get_lookup _ _ _ Hl). cbn [rbind].
  rewrite (pop_lookup _ _ _ Hl).
  destruct (dict_get direc_d tl) as [d |] eqn:Hd'.
  { cbn [rbind]. rewrite Hd'. cbn [of_option rbind].
    eexists. split; [reflexivity |]. apply Hlen. simpl. lia. }
  destruct (in_list (Str.capitalize tl) directions).
  { cbn [rbind]. eexists. split; [reflexivity |]. apply Hlen. simpl. lia. }
  by exists els.
Qed.

Lemma street_tokens_ok (street : string) :
  exists toks, street_tokens street = Ok toks.
Proof.
  unfold street_tokens.
  pose proof (split_blank_nonempty
                (Str.strip Char.is_space (Str.sub_hash street))) as Hne.
  destruct (Str.split_blank _) as [| t ts]; [done |].
  cbn [List.map].
  change (PyList.get (?x :: ?l) 0) with (Ok x). cbn [rbind].
  change (PyList.pop (?x :: ?l) 0) with (Ok (x, l)).
  destruct (Str.isdigit _); cbn [rbind]; eauto.
Qed.

Lemma shape_streetname_index_error_from (street : string) (w : Wrangler) :
  street_tokens street = Ok [] ->
  shape_streetname street w = Raise IndexError.
Proof. intros H. unfold shape_streetname. by rewrite H. Qed.

Lemma shape_streetname_cases (street : string) (w : Wrangler) :
  (street_tokens street = Ok []
   /\ shape_streetname street w = Raise IndexError)
  \/ (exists t ts new_street w',
        street_tokens street = Ok (t :: ts)
        /\ shape_streetname street w = Ok (new_street, w')).
Proof.
  destruct (street_tokens_ok street) as [[| t ts] Htoks].
  - left. split; [done |]. by apply shape_streetname_index_error_from.
  - right. unfold shape_streetname. rewrite Htoks. cbn [rbind].
    destruct (direction_loop_length t ts) as (els & -> & _). cbn [rbind].
    destruct (street_type_pass_total els) as (out & -> & _). cbn [rbind].
    destruct (negb _); eauto 10.
Qed.

(** X3.  [shape_streetname] fails in one way only: it returns a street
    unless no token is left once the house number is dropped, and then it
    raises [IndexError]. *)
Theorem shape_streetname_total_but_empty (street : string) (w : Wrangler) :
  (street_tokens street = Ok []
   /\ shape_streetname street w = Raise IndexError)
  \/ (exists t ts new_street w',
        street_tokens street = Ok (t :: ts)
        /\ shape_streetname street w = Ok (new_street, w')).
Proof. exact (shape_streetname_cases street w). Qed.

(** X4.  [shape_streetname] raises exactly when what is left of the street,
    once the unit markers and the outer whitespace are gone, is a single
    token that consists of digits after its outer dots are stripped. *)
Theorem shape_streetname_raises_iff (street : string) (w : Wrangler) :
  (exists e, shape_streetname street w = Raise e)
  <-> exists t,
        Str.split_blank (Str.strip Char.is_space (Str.sub_hash street)) = [t]
        /\ Str.isdigit (Str.strip Char.is_dot t) = true.
Proof.
  assert (Hempty : street_tokens street = Ok [] <->
            exists t,
              Str.split_blank (Str.strip Char.is_space (Str.sub_hash street))
              = [t]
              /\ Str.isdigit (Str.strip Char.is_dot t) = true).
  { unfold street_tokens.
    pose proof (split_blank_nonempty
                  (Str.strip Char.is_space (Str.sub_hash street))) as Hne.
    destruct (Str.split_blank _) as [| t ts]; [done |].
    cbn [List.map].
    change (PyList.get (?x :: ?l) 0) with (Ok x). cbn [rbind].
    change (PyList.pop (?x :: ?l) 0) with (Ok (x, l)).
    destruct (Str.isdigit (Str.strip Char.is_dot t)) eqn:Hd; cbn [rbind].
    - split.
      + intros [= Hts]. destruct ts; [| done]. by exists t.
      + intros (t' & [= <- ->] & _). done.
    - split; [done |].
      intros (t' & [= <- ->] & Hd'). congruence. }
  rewrite <- Hempty.
  destruct (shape_streetname_cases street w)
    as [[Htoks Hraise] | (t & ts & new & w' & Htoks & Hok)].
  - split; [done | eauto].
  - split; [intros [e He]; congruence | intros H; congruence].
Qed.

(** ** City names *)

Lemma filter_filter (p : ascii -> bool) (s : string) :
  Str.filter p (Str.filter p s) = Str.filter p s.
Proof.
  induction s as [| c s IH]; [done |]. cbn [Str.filter].
  destruct (p c) eqn:Hc; [| exact IH].
  cbn [Str.filter]. by rewrite Hc, IH.
Qed.

Lemma occurs_remove_space (name city : string) :
  occurs name (Str.remove_space city) = occurs name city.
Proof. unfold occurs, Str.remove_space. by rewrite filter_filter. Qed.

Lemma city_loop_first_match (names : list string) (city : string)
    (w : Wrangler) :
  (city_loop names city w = (VNone, w)
   /\ forall name, name ∈ names -> occurs name city = false)
  \/ (exists pre name post,
        names = pre ++ name :: post
        /\ city_loop names city w
           = (VStr name, write_city w (Str.remove_space city, name))
        /\ occurs name city = true
        /\ forall n, n ∈ pre -> occurs n city = false).
Proof.
  revert city. induction names as [| name names IH]; intros city.
  { left. split; [done |]. intros name H. by apply elem_of_nil in H. }
  cbn [city_loop]. fold (occurs name city).
  destruct (occurs name city) eqn:Hocc.
  - right. exists [], name, names. repeat split; try done.
    intros n H. by apply elem_of_nil in H.
  - destruct (IH (Str.remove_space city))
      as [[Hnone Hall] | (pre & n & post & -> & Hrun & Hn & Hpre)].
    + left. split; [exact Hnone |].
      intros n [-> | Hn]%elem_of_cons; [done |].
      rewrite <- occurs_remove_space. by apply Hall.
    + right. exists (name :: pre), n, post.
      unfold Str.remove_space in Hrun. rewrite filter_filter in Hrun.
      rewrite occurs_remove_space in Hn.
      repeat split; try done.
      intros n' [-> | Hn']%elem_of_cons; [done |].
      rewrite <- occurs_remove_space. by apply Hpre.
Qed.

(** X5.  [shape_city] returns the first name of its list that occurs in the
    city, and writes one line with the whitespace-free city and that name;
    when no name of the list occurs it returns [None] and writes nothing. *)
Theorem shape_city_first_match (city : string) (w : Wrangler) :
  (shape_city city w = (VNone, w)
   /\ forall name, name ∈ cities -> occurs name city = false)
  \/ (exists pre name post,
        cities = pre ++ name :: post
        /\ shape_city city w
           = (VStr name, write_city w (Str.remove_space city, name))
        /\ occurs name city = true
        /\ forall n, n ∈ pre -> occurs n city = false).
Proof. apply city_loop_first_match. Qed.

Lemma city_loop_key (names : list string) (a b : string) (w w' : Wrangler) :
  Str.lower (Str.remove_space a) = Str.lower (Str.remove_space b) ->
  fst (city_loop names a w) = fst (city_loop names b w').
Proof.
  revert a b. induction names as [| name names IH]; intros a b Hab; [done |].
  cbn [city_loop]. rewrite Hab.
  destruct (Str.containsb _ _); [done |].
  apply IH. unfold Str.remove_space. by rewrite !filter_filter.
Qed.



Lemma cities_fixed :
  List.forallb
    (fun name => match fst (shape_city name (new_wrangler ∅)) with
                 | VStr name' => String.eqb name' name
                 | _ => false
                 end)
    cities = true.
Proof. vm_compute. reflexivity. Qed.

(** X7.  A name [shape_city] returned is returned again when it is given as
    the city: no name of the list is hidden by an earlier one. *)
Theorem shape_city_idempotent (city name : string) (w w' w'' : Wrangler) :
  shape_city city w = (VStr name, w') ->
  fst (shape_city name w'') = VStr name.
Proof.
  intros Hrun.
  assert (Hin : name ∈ cities).
  { destruct (city_loop_first_match cities city w)
      as [[Hnone _] | (pre & n & post & Hsplit & Hn & _)];
      fold (shape_city city w) in *.
    - congruence.
    - rewrite Hn in Hrun. injection Hrun as -> _.
      rewrite Hsplit. apply elem_of_app. right. by left. }
  pose proof (forallb_elem _ _ _ cities_fixed Hin) as Hfix.
  cbv beta in Hfix. unfold shape_city in *.
  rewrite (city_loop_key cities name name w'' (new_wrangler ∅) eq_refl).
  destruct (fst (city_loop cities name (new_wrangler ∅))) as [| n | |];
    try discriminate.
  by apply String.eqb_eq in Hfix as ->.
Qed.

(** X7 at the city ["austin,tx"]. *)
Lemma shape_city_idempotent_witness :
  fst (shape_city "Austin" (new_wrangler ∅)) = VStr "Austin".
Proof.
  apply (shape_city_idempotent "austin,tx" "Austin" (new_wrangler ∅)
           (write_city (new_wrangler ∅) ("austin,tx", "Austin"))).
  reflexivity.
Defined.

(** ** Postal codes: what the first branch returns *)

Lemma append_cons (c : ascii) (a b : string) :
  (String c a ++ b)%string = String c (a ++ b)%string.
Proof. reflexivity. Qed.

Lemma forallb_append (p : ascii -> bool) (a b : string) :
  Str.forallb p (a ++ b)%string = Str.forallb p a && Str.forallb p b.
Proof.
  induction a as [| c a IH]; [done |].
  rewrite append_cons. cbn [Str.forallb]. by rewrite IH, andb_assoc.
Qed.

Lemma length_append_char (a : string) (c : ascii) :
  String.length (a ++ String c EmptyString)%string = S (String.length a).
Proof.
  induction a as [| d a IH]; [done |].
  rewrite append_cons. cbn [String.length]. by rewrite IH.
Qed.

Lemma prefixb_append (p s : string) : Str.prefixb p (p ++ s)%string = true.
Proof.
  induction p as [| c p IH]; [done |].
  rewrite append_cons. cbn [Str.prefixb]. by rewrite Ascii.eqb_refl, IH.
Qed.

Lemma containsb_prefix (p s : string) :
  Str.prefixb p s = true -> Str.containsb p s = true.
Proof. intros H. destruct s; simpl; by rewrite H. Qed.

Lemma containsb_append (m p s : string) :
  Str.containsb m s = true -> Str.containsb m (p ++ s)%string = true.
Proof.
  intros H. induction p as [| c p IH]; [done |].
  rewrite append_cons. cbn [Str.containsb]. rewrite IH. apply orb_true_r.
Qed.

Lemma append_char_assoc (a : string) (c : ascii) (s : string) :
  ((a ++ String c EmptyString) ++ s)%string = (a ++ String c s)%string.
Proof.
  induction a as [| d a IH]; [done |]. rewrite !append_cons. by rewrite IH.
Qed.

Lemma findall_d5_go_matches (s acc m : string) (n : nat) :
  String.length acc = n -> (n < 5)%nat ->
  Str.forallb Char.is_digit acc = true ->
  m ∈ findall_d5_go acc n s ->
  String.length m = 5%nat
  /\ Str.forallb Char.is_digit m = true
  /\ Str.containsb m (acc ++ s)%string = true.
Proof.
  revert acc n. induction s as [| c s IH]; intros acc n Hlen Hn Hacc Hm.
  { by apply elem_of_nil in Hm. }
  cbn [findall_d5_go] in Hm.
  assert (Hfresh : m ∈ findall_d5_go EmptyString 0 s ->
            String.length m = 5%nat
            /\ Str.forallb Char.is_digit m = true
            /\ Str.containsb m (acc ++ String c s)%string = true).
  { intros H. destruct (IH EmptyString 0%nat eq_refl ltac:(lia) eq_refl H)
      as (H1 & H2 & H3).
    repeat split; try done.
    apply containsb_append. cbn [Str.containsb].
    change (EmptyString ++ s)%string with s in H3.
    rewrite H3. apply orb_true_r. }
  destruct (Char.is_digit c) eqn:Hc; [| by apply Hfresh].
  assert (Hacc' : Str.forallb Char.is_digit (acc ++ String c EmptyString)
                  = true).
  { rewrite forallb_append, Hacc. simpl. by rewrite Hc. }
  assert (Hlen' : String.length (acc ++ String c EmptyString)%string = S n).
  { by rewrite length_append_char, Hlen. }
  destruct (decide (n = 4%nat)) as [-> | Hne].
  - apply elem_of_cons in Hm as [-> | Hm]; [| by apply Hfresh].
    repeat split; try done.
    rewrite <- (append_char_assoc acc c s).
    apply containsb_prefix, prefixb_append.
  - assert (Hm' : m ∈ findall_d5_go (acc ++ String c EmptyString) (S n) s).
    { by destruct n as [| [| [| [| [| n]]]]]. }
    destruct (IH _ _ Hlen' ltac:(lia) Hacc' Hm') as (H1 & H2 & H3).
    repeat split; try done. by rewrite <- (append_char_assoc acc c s).
Qed.

(** X8.  Every match of [re.findall(r'(\d{5})', s)] consists of five digits
    and is a piece of [s]. *)
Theorem findall_d5_matches (s m : string) :
  m ∈ findall_d5 s ->
  String.length m = 5%nat
  /\ Str.forallb Char.is_digit m = true
  /\ Str.containsb m s = true.
Proof.
  intros H.
  by apply (findall_d5_go_matches s EmptyString m 0 eq_refl ltac:(lia)
              eq_refl).
Qed.

(** X8 at the value ["TX 78704-1234"]. *)
Lemma findall_d5_matches_witness :
  String.length "78704" = 5%nat
  /\ Str.forallb Char.is_digit "78704" = true
  /\ Str.containsb "78704" "TX 78704-1234" = true.
Proof.
  apply (findall_d5_matches "TX 78704-1234" "78704").
  by left.
Defined.

(** X9.  A string that [shape_zipcode] returns is a run of five digits of
    the raw value that starts with [7]; it is returned whatever the
    coordinates are and whatever the geocoder would answer. *)
Theorem shape_zipcode_string
    (float_ok : string -> bool)
    (geocode : string -> string -> result (option Z))
    (zcode m : string) (lat lon : option string) (w w' : Wrangler) :
  shape_zipcode float_ok geocode zcode lat lon w = Ok (VStr m, w') ->
  String.length m = 5%nat
  /\ Str.forallb Char.is_digit m = true
  /\ Str.prefixb "7" m = true
  /\ Str.containsb m (Str.ascii_only zcode) = true
  /\ forall float_ok' geocode' lat' lon',
       shape_zipcode float_ok' geocode' zcode lat' lon' w = Ok (VStr m, w').
Proof.
  unfold shape_zipcode.
  destruct (regional (findall_d5 (Str.ascii_only zcode))) as [m' |] eqn:Hr.
  - intros [= -> <-]. unfold regional in Hr.
    destruct (findall_d5 (Str.ascii_only zcode)) as [| m0 ms] eqn:Hf;
      [done |].
    destruct (Str.prefixb "7" m0) eqn:H7; [| done].
    injection Hr as ->.
    destruct (findall_d5_go_matches (Str.ascii_only zcode) EmptyString m 0
                eq_refl ltac:(lia) eq_refl) as (H1 & H2 & H3).
    { fold (findall_d5 (Str.ascii_only zcode)). rewrite Hf. by left. }
    repeat split; try done.
  - unfold get_zcode.
    destruct lat as [la |], lon as [lo |]; try discriminate.
    destruct (float_ok la), (float_ok lo); try discriminate. cbn [negb].
    destruct (geocode la lo) as [[z |] | e]; discriminate.
Qed.

(** X9 at the value ["TX 78704-1234"], without coordinates. *)
Lemma shape_zipcode_string_witness :
  String.length "78704" = 5%nat
  /\ Str.forallb Char.is_digit "78704" = true
  /\ Str.prefixb "7" "78704" = true
  /\ Str.containsb "78704" (Str.ascii_only "TX 78704-1234") = true
  /\ forall float_ok' geocode' lat' lon',
       shape_zipcode float_ok' geocode' "TX 78704-1234" lat' lon'
         (new_wrangler ∅)
       = Ok (VStr "78704",
             write_zipcode (new_wrangler ∅) ("TX 78704-1234", VStr "78704")).
Proof.
  apply (shape_zipcode_string (fun _ => true) (fun _ _ => Ok None)
           "TX 78704-1234" "78704" None None (new_wrangler ∅)).
  reflexivity.
Defined.

Lemma shape_zipcode_written
    (float_ok : string -> bool)
    (geocode : string -> string -> result (option Z))
    (zcode : string) (lat lon : option string) (v : pyval)
    (w w' : Wrangler) :
  shape_zipcode float_ok geocode zcode lat lon w = Ok (v, w') ->
  w' = write_zipcode w (Str.ascii_only zcode, v).
Proof.
  unfold shape_zipcode.
  destruct (regional _) as [m |]; [by intros [= <- <-] |].
  destruct (get_zcode float_ok geocode lat lon) as [v' | e];
    [| discriminate].
  by intros [= <- <-].
Qed.

(** X10.  A call of [shape_zipcode] that returns has written one line, with
    the raw value reduced to its ASCII characters and the value returned,
    and it has touched no other file. *)
Theorem shape_zipcode_one_line
    (float_ok : string -> bool)
    (geocode : string -> string -> result (option Z))
    (zcode : string) (lat lon : option string) (v : pyval)
    (w w' : Wrangler) :
  shape_zipcode float_ok geocode zcode lat lon w = Ok (v, w') ->
  w' = write_zipcode w (Str.ascii_only zcode, v).
Proof. apply shape_zipcode_written. Qed.

(** X10 for the value ["00000"] and a geocoder that answers [78701]. *)
Lemma shape_zipcode_one_line_witness :
  write_zipcode (new_wrangler ∅) ("00000", VInt 78701)
  = write_zipcode (new_wrangler ∅) (Str.ascii_only "00000", VInt 78701).
Proof.
  apply (shape_zipcode_one_line (fun _ => true) (fun _ _ => Ok (Some 78701))
           "00000" (Some "30.27") (Some "-97.74")).
  reflexivity.
Defined.



(** ** Population figures: when the table is consulted *)


(** ** Rows and counters of [process_data] *)

Lemma dict_get_set_eq {V : Type} (d : list (string * V)) (k : string) (v : V) :
  dict_get (dict_set d k v) k = Some v.
Proof.
  induction d as [| [k' v'] d IH]; cbn [dict_set dict_get].
  - by rewrite String.eqb_refl.
  - destruct (String.eqb k' k) eqn:E; cbn [dict_get]; by rewrite E.
Qed.

Lemma dict_get_set_ne {V : Type} (d : list (string * V)) (k k' : string)
    (v : V) :
  k <> k' -> dict_get (dict_set d k v) k' = dict_get d k'.
Proof.
  intros Hne. induction d as [| [k0 v0] d IH]; cbn [dict_set dict_get].
  - by destruct (String.eqb_spec k k').
  - destruct (String.eqb_spec k0 k) as [-> | _]; cbn [dict_get].
    + by destruct (String.eqb_spec k k').
    + by rewrite IH.
Qed.

Lemma dict_get_map {U V : Type} (f : U -> V) (d : list (string * U))
    (k : string) :
  dict_get (List.map (fun kv => (fst kv, f (snd kv))) d) k
  = f <$> dict_get d k.
Proof.
  induction d as [| [k' v'] d IH]; [done |].
  cbn [List.map dict_get fst snd]. by destruct (String.eqb k' k).
Qed.

Lemma shape_streetname_tables (street new_street : string) (w w' : Wrangler) :
  shape_streetname street w = Ok (new_street, w') -> same_tables w w'.
Proof.
  intros H. apply shape_streetname_log in H as ->.
  by destruct (String.eqb _ _).
Qed.

Lemma shape_city_tables (city : string) (w : Wrangler) :
  same_tables w (snd (shape_city city w)).
Proof.
  unfold shape_city.
  destruct (city_loop_first_match cities city w)
    as [[-> _] | (pre & name & post & _ & -> & _)]; done.
Qed.

Lemma shape_population_tables (name popul : string) (v : pyval)
    (w w' : Wrangler) :
  shape_population name popul w = Ok (v, w') -> same_tables w w'.
Proof.
  unfold shape_population. destruct (py_int popul); [| discriminate].
  cbn [rbind]. destruct (differs_from_int _ _); by intros [= _ <-].
Qed.

Section Rows.

Variable float_ok : string -> bool.
Variable geocode : string -> string -> result (option Z).

Lemma shape_tag_tables (element : Element) (lat lon k v : option string)
    (attrib attrib' : list (string * pyval)) (new : pyval)
    (w w' : Wrangler) :
  shape_tag float_ok geocode element lat lon k v attrib w
  = Ok (new, attrib', w') ->
  same_tables w w'
  /\ dict_get attrib' "id" = dict_get attrib "id"
  /\ dict_get attrib' "k" = dict_get attrib "k".
Proof.
  unfold shape_tag.
  assert (Hgov : forall r,
            (let* (new0, w0) := r in
             Ok (new0, dict_set attrib "v" new0, w0))
            = Ok (new, attrib', w') ->
            (forall v0 w0, r = Ok (v0, w0) -> same_tables w w0) ->
            same_tables w w'
            /\ dict_get attrib' "id" = dict_get attrib "id"
            /\ dict_get attrib' "k" = dict_get attrib "k").
  { intros [[v0 w0] | e] Hr Hsame; [| discriminate].
    cbn [rbind] in Hr. injection Hr as <- <- <-.
    split; [by eapply Hsame |].
    by rewrite !dict_get_set_ne. }
  destruct (key_is k "addr:postcode").
  { intros H. apply (Hgov _ H). intros v0 w0.
    destruct v as [v |]; [| discriminate]. cbn [of_option rbind].
    by intros ->%shape_zipcode_written. }
  destruct (key_is k "addr:city").
  { intros H. apply (Hgov _ H). intros v0 w0.
    destruct v as [v |]; [| discriminate]. cbn [of_option rbind].
    intros [= Hc]. pose proof (shape_city_tables v w) as Hsame.
    by rewrite Hc in Hsame. }
  destruct (key_is k "addr:street").
  { intros H. apply (Hgov _ H). intros v0 w0.
    destruct v as [v |]; [| discriminate]. cbn [of_option rbind].
    destruct (shape_streetname v w) as [[s w1] |] eqn:Hs; [| discriminate].
    cbn [rbind]. intros [= _ <-]. by eapply shape_streetname_tables. }
  destruct (key_is k "population").
  { intros H. apply (Hgov _ H). intros v0 w0.
    destruct (PyList.get _ 0) as [name_tag |]; [| discriminate].
    cbn [rbind].
    destruct (dict_get (c_attrib name_tag) "v") as [city_name |];
      [| discriminate].
    destruct v as [v |]; [| discriminate]. cbn [of_option rbind].
    apply shape_population_tables. }
  by intros [= <- <- <-].
Qed.

Lemma tag_loop_rows (element : Element) (element_id : string)
    (lat lon : option string) (children : list Child)
    (c c' : Counts) (w w' : Wrangler) :
  tag_loop float_ok geocode element element_id lat lon children (c, w)
  = Ok (c', w') ->
  pop_est w' = pop_est w /\ node_rows w' = node_rows w
  /\ count_tags c' = count_tags c + Z.of_nat (length children)
  /\ count_tags_cleaned c <= count_tags_cleaned c'
     <= count_tags_cleaned c + Z.of_nat (length children)
  /\ exists rows,
       tag_rows w' = tag_rows w ++ rows
       /\ exemption_count c'
          = exemption_count c + Z.of_nat (length children)
            - Z.of_nat (length rows)
       /\ (length rows <= length children)%nat
       /\ Forall (fun row =>
                    dict_get row "id" = Some (VStr element_id)
                    /\ exists child,
                         child ∈ children
                         /\ dict_get row "k"
                            = VStr <$> dict_get (c_attrib child) "k")
            rows.
Proof.
  revert c w. induction children as [| child children IH]; intros c w.
  { intros [= <- <-].
    split; [done |]. split; [done |]. split; [simpl; lia |].
    split; [simpl; lia |].
    exists []. rewrite app_nil_r.
    split; [done |]. split; [simpl; lia |]. split; [done |]. constructor. }
  cbn [tag_loop].
  destruct (shape_tag _ _ _ _ _ _ _ _ _) as [[[new attrib'] w1] |] eqn:Hs;
    [| discriminate].
  cbn [rbind].
  apply shape_tag_tables in Hs as ((Hp & Hn & Ht) & Hid & Hk).
  rewrite dict_get_set_eq in Hid.
  rewrite dict_get_set_ne, dict_get_map in Hk by done.
  set (c1 := if differs new (dict_get (c_attrib child) "v") then _ else _).
  assert (Hc1 : exemption_count c1 = exemption_count c
                /\ count_tags c1 = count_tags c + 1
                /\ count_tags_cleaned c <= count_tags_cleaned c1
                   <= count_tags_cleaned c + 1).
  { unfold c1. destruct (differs _ _); simpl; lia. }
  clearbody c1. destruct Hc1 as (He1 & Ht1 & Hcl1).
  cbn [length]. rewrite !Nat2Z.inj_succ.
  destruct (writable tag_fieldnames attrib').
  - intros H. apply IH in H
      as (Hp' & Hn' & Hct & Hcl & rows & Hrows & Hex & Hlen & Hall).
    cbn [write_tag_row pop_est node_rows tag_rows] in *.
    split; [congruence |]. split; [congruence |]. split; [lia |].
    split; [lia |].
    exists (attrib' :: rows).
    split; [rewrite Hrows, Ht; by rewrite <- app_assoc |].
    split; [cbn [length]; lia |]. split; [cbn [length]; lia |].
    constructor.
      * split; [exact Hid |]. exists child. split; [by left | exact Hk].
      * eapply Forall_impl; [exact Hall |].
        intros row (Hr & ch & Hch & Hrk). split; [exact Hr |].
        exists ch. split; [by right | exact Hrk].
  - intros H. apply IH in H
      as (Hp' & Hn' & Hct & Hcl & rows & Hrows & Hex & Hlen & Hall).
    cbn [exemption_count count_tags count_tags_cleaned] in *.
    split; [congruence |]. split; [congruence |]. split; [lia |].
    split; [lia |].
    exists rows.
    split; [by rewrite Hrows, Ht |]. split; [lia |]. split; [lia |].
    eapply Forall_impl; [exact Hall |].
    intros row (Hr & ch & Hch & Hrk). split; [exact Hr |].
    exists ch. split; [by right | exact Hrk].
Qed.

Lemma serialized_cons (element : Element) (rest : list Element) :
  serialized (element :: rest)
  = if writable node_fieldnames (node_row element)
    then element :: serialized rest
    else serialized rest.
Proof. reflexivity. Qed.

Lemma element_loop_rows (elements : list Element) (c c' : Counts)
    (w w' : Wrangler) :
  element_loop float_ok geocode elements (c, w) = Ok (c', w') ->
  pop_est w' = pop_est w
  /\ node_rows w' = node_rows w ++ List.map node_row (serialized elements)
  /\ count_tags c'
     = count_tags c + Z.of_nat (length (visited_tags elements))
  /\ count_tags_cleaned c <= count_tags_cleaned c'
     <= count_tags_cleaned c + Z.of_nat (length (visited_tags elements))
  /\ exists rows,
       tag_rows w' = tag_rows w ++ rows
       /\ exemption_count c'
          = exemption_count c
            + (Z.of_nat (length elements)
               - Z.of_nat (length (serialized elements)))
            + (Z.of_nat (length (visited_tags elements))
               - Z.of_nat (length rows))
       /\ (length rows <= length (visited_tags elements))%nat
       /\ Forall (fun row => exists element,
                    element ∈ serialized elements /\ row_of element row)
            rows.
Proof.
  revert c w. induction elements as [| element elements IH]; intros c w.
  { intros [= <- <-].
    split; [done |]. split; [by rewrite app_nil_r |]. split; [simpl; lia |].
    split; [simpl; lia |].
    exists []. rewrite app_nil_r.
    split; [done |]. split; [simpl; lia |]. split; [done |]. constructor. }
  cbn [element_loop].
  destruct (dict_get (e_attrib element) "id") as [element_id |] eqn:Hid;
    [| discriminate].
  cbn [of_option rbind]. fold (node_row element).
  unfold visited_tags. rewrite serialized_cons.
  destruct (writable node_fieldnames (node_row element)) eqn:Hw; cbn [negb].
  - (* the node row is written *)
    cbn [List.map concat]. fold (visited_tags elements).
    assert (Htags : exists st,
              (match e_children element with
               | [] => element_loop float_ok geocode elements
                         (c, write_node_row w (node_row element))
               | _ :: _ =>
                   let* st' := tag_loop float_ok geocode element element_id
                                 (dict_get (e_attrib element) "lat")
                                 (dict_get (e_attrib element) "lon")
                                 (findall_tag element)
                                 (c, write_node_row w (node_row element)) in
                   element_loop float_ok geocode elements st'
               end = Ok (c', w')) ->
              tag_loop float_ok geocode element element_id
                (dict_get (e_attrib element) "lat")
                (dict_get (e_attrib element) "lon")
                (findall_tag element)
                (c, write_node_row w (node_row element)) = Ok st
              /\ element_loop float_ok geocode elements st = Ok (c', w')).
    { unfold findall_tag. destruct (e_children element) as [| ch chs].
      - exists (c, write_node_row w (node_row element)). by intros H.
      - destruct (tag_loop _ _ _ _ _ _ _ _) as [st |].
        + exists st. by intros H.
        + exists (c, w). discriminate. }
    destruct Htags as [[c1 w1] Htags]. intros H.
    destruct (Htags H) as [Htag Hrest]. clear Htags H.
    apply tag_loop_rows in Htag
      as (Hp1 & Hn1 & Hct1 & Hcl1 & rows1 & Hr1 & He1 & Hl1 & Hall1).
    apply IH in Hrest
      as (Hp2 & Hn2 & Hct2 & Hcl2 & rows2 & Hr2 & He2 & Hl2 & Hall2).
    cbn [write_node_row pop_est node_rows tag_rows] in *.
    rewrite length_app. cbn [length].
    split; [congruence |].
    split; [rewrite Hn2, Hn1; by rewrite <- app_assoc |].
    split; [lia |]. split; [lia |].
    exists (rows1 ++ rows2).
    split; [rewrite Hr2, Hr1; by rewrite <- app_assoc |].
    rewrite length_app.
    split; [lia |]. split; [lia |].
    apply Forall_app. split.
    + eapply Forall_impl; [exact Hall1 |].
      intros row (Hrow & child & Hchild & Hk). exists element.
      split; [by left |]. split; [by exists element_id | by exists child].
    + eapply Forall_impl; [exact Hall2 |].
      intros row (e & He & Hrow). exists e. split; [by right | exact Hrow].
  - (* the element is exempted *)
    intros H. apply IH in H
      as (Hp2 & Hn2 & Hct2 & Hcl2 & rows2 & Hr2 & He2 & Hl2 & Hall2).
    cbn [exemption_count count_tags count_tags_cleaned length] in *.
    fold (visited_tags elements).
    split; [done |]. split; [done |]. split; [lia |]. split; [lia |].
    exists rows2.
    split; [done |]. split; [lia |]. split; [lia |]. exact Hall2.
Qed.

(** X13.  When [process_data] returns, the node file holds its header and
    then, in document order, one row for each yielded element whose
    attributes are all columns of the file; the reference table is
    untouched. *)
Theorem process_data_node_rows (doc : list Element) (c : Counts)
    (w w' : Wrangler) :
  process_data float_ok geocode doc w = Ok (c, w') ->
  node_rows w'
  = header node_fieldnames
    :: List.map node_row (serialized (get_element doc))
  /\ pop_est w' = pop_est w.
Proof.
  unfold process_data. intros H.
  apply element_loop_rows in H as (Hp & Hn & _). by split.
Qed.

(** X14.  When [process_data] returns, the number of tags reviewed is the
    number of [tag] children of the elements whose node row was written,
    and the number of tags corrected lies between 0 and it. *)
Theorem process_data_counters (doc : list Element) (c : Counts)
    (w w' : Wrangler) :
  process_data float_ok geocode doc w = Ok (c, w') ->
  count_tags c = Z.of_nat (length (visited_tags (get_element doc)))
  /\ 0 <= count_tags_cleaned c <= count_tags c.
Proof.
  unfold process_data. intros H.
  apply element_loop_rows in H as (_ & _ & Hct & Hcl & _).
  cbn [count_tags count_tags_cleaned] in *. lia.
Qed.

(** X15.  When [process_data] returns, every yielded element was written
    or exempted and every visited tag was written or exempted: the
    exemption counter is the number of elements without a node row plus
    the number of visited tags without a tag row. *)
Theorem process_data_exemptions (doc : list Element) (c : Counts)
    (w w' : Wrangler) :
  process_data float_ok geocode doc w = Ok (c, w') ->
  exemption_count c
  = (Z.of_nat (length (get_element doc))
     - Z.of_nat (length (serialized (get_element doc))))
    + (Z.of_nat (length (visited_tags (get_element doc)))
       - (Z.of_nat (length (tag_rows w')) - 1))
  /\ (length (tag_rows w') <= S (length (visited_tags (get_element doc))))%nat.
Proof.
  unfold process_data. intros H.
  apply element_loop_rows in H
    as (_ & _ & _ & _ & rows & Hr & He & Hl & _).
  cbn [reset_data_files tag_rows exemption_count] in *.
  rewrite Hr. cbn [app length]. lia.
Qed.

(** X16.  When [process_data] returns, the tag file holds its header and
    then rows that each carry the [id] of an element whose node row was
    written, together with the key of one of that element's tags. *)
Theorem process_data_tag_rows (doc : list Element) (c : Counts)
    (w w' : Wrangler) :
  process_data float_ok geocode doc w = Ok (c, w') ->
  exists rows,
    tag_rows w' = header tag_fieldnames :: rows
    /\ Forall (fun row => exists element,
                 element ∈ serialized (get_element doc)
                 /\ node_row element ∈ node_rows w'
                 /\ row_of element row)
         rows.
Proof.
  unfold process_data. intros H.
  apply element_loop_rows in H
    as (_ & Hn & _ & _ & rows & Hr & _ & _ & Hall).
  exists rows. split; [exact Hr |].
  eapply Forall_impl; [exact Hall |].
  intros row (e & He & Hrow). exists e. repeat split; try apply Hrow; [done |].
  rewrite Hn. apply elem_of_app. right. by apply list_elem_of_fmap_2.
Qed.

End Rows.

(** X13 to X16 on the document of the one restaurant. *)
Lemma process_data_node_rows_witness :
  node_rows
    (write_tag_row
       (write_node_row (reset_data_files (new_wrangler ∅))
          (node_row Examples.restaurant))
       [("k", VStr "amenity"); ("v", VStr "restaurant"); ("id", VStr "1")])
  = header node_fieldnames
    :: List.map node_row (serialized (get_element [Examples.restaurant]))
  /\ pop_est
       (write_tag_row
          (write_node_row (reset_data_files (new_wrangler ∅))
             (node_row Examples.restaurant))
          [("k", VStr "amenity"); ("v", VStr "restaurant");
           ("id", VStr "1")])
     = pop_est (new_wrangler ∅).
Proof.
  apply (process_data_node_rows (fun _ => true) (fun _ _ => Ok None)
           [Examples.restaurant] (mkCounts 0 1 1) (new_wrangler ∅)).
  reflexivity.
Defined.

Lemma process_data_counters_witness :
  count_tags (mkCounts 0 1 1)
  = Z.of_nat (length (visited_tags (get_element [Examples.restaurant])))
  /\ 0 <= count_tags_cleaned (mkCounts 0 1 1) <= count_tags (mkCounts 0 1 1).
Proof.
  apply (process_data_counters (fun _ => true) (fun _ _ => Ok None)
           [Examples.restaurant] (mkCounts 0 1 1) (new_wrangler ∅)
           (write_tag_row
              (write_node_row (reset_data_files (new_wrangler ∅))
                 (node_row Examples.restaurant))
              [("k", VStr "amenity"); ("v", VStr "restaurant");
               ("id", VStr "1")])).
  reflexivity.
Defined.

Lemma process_data_exemptions_witness :
  exists w',
    process_data (fun _ => true) (fun _ _ => Ok None)
      [Examples.restaurant] (new_wrangler ∅) = Ok (mkCounts 0 1 1, w')
    /\ exemption_count (mkCounts 0 1 1)
       = (Z.of_nat (length (get_element [Examples.restaurant]))
          - Z.of_nat (length (serialized (get_element [Examples.restaurant]))))
         + (Z.of_nat (length (visited_tags
                                (get_element [Examples.restaurant])))
            - (Z.of_nat (length (tag_rows w')) - 1)).
Proof.
  eexists. split; [reflexivity |].
  refine (proj1 (process_data_exemptions (fun _ => true) (fun _ _ => Ok None)
                   [Examples.restaurant] (mkCounts 0 1 1) (new_wrangler ∅)
                   _ _)).
  reflexivity.
Defined.

Lemma process_data_tag_rows_witness :
  exists w' rows,
    process_data (fun _ => true) (fun _ _ => Ok None)
      [Examples.restaurant] (new_wrangler ∅) = Ok (mkCounts 0 1 1, w')
    /\ tag_rows w' = header tag_fieldnames :: rows
    /\ Forall (fun row => exists element,
                 element ∈ serialized (get_element [Examples.restaurant])
                 /\ node_row element ∈ node_rows w'
                 /\ row_of element row)
         rows.
Proof.
  eexists.
  destruct (process_data_tag_rows (fun _ => true) (fun _ _ => Ok None)
              [Examples.restaurant] (mkCounts 0 1 1) (new_wrangler ∅)
              _ eq_refl) as (rows & Hrows & Hall).
  exists rows. split; [reflexivity |]. by split.
Defined.

(** ** Documents without governed tags *)

Section Ungoverned.

Variable float_ok : string -> bool.
Variable geocode : string -> string -> result (option Z).

Lemma tag_loop_ungoverned (element : Element) (element_id : string)
    (lat lon : option string) (children : list Child)
    (c : Counts) (w : Wrangler) :
  (forall child, child ∈ children ->
     governed_key (dict_get (c_attrib child) "k") = false) ->
  exists c' w',
    tag_loop float_ok geocode element element_id lat lon children (c, w)
    = Ok (c', w')
    /\ same_logs w w'
    /\ count_tags_cleaned c'
       = count_tags_cleaned c
         + Z.of_nat (length (List.filter has_value children)).
Proof.
  revert c w. induction children as [| child children IH]; intros c w Hk.
  { exists c, w. split; [done |]. split; [done |]. simpl. lia. }
  assert (Hchild : governed_key (dict_get (c_attrib child) "k") = false)
    by (apply Hk; by left).
  unfold governed_key in Hchild.
  apply orb_false_elim in Hchild as [Hchild Hpop].
  apply orb_false_elim in Hchild as [Hchild Hstreet].
  apply orb_false_elim in Hchild as [Hzip Hcity].
  cbn [tag_loop]. unfold shape_tag.
  rewrite Hzip, Hcity, Hstreet, Hpop. cbn [rbind].
  cbn [List.filter]. unfold has_value at 1.
  set (attrib := dict_set _ "id" _).
  destruct (dict_get (c_attrib child) "v") as [v |]; cbn [differs];
    destruct (writable tag_fieldnames attrib);
    match goal with
    | |- context [tag_loop _ _ _ _ _ _ _ (?c1, ?w1)] =>
        destruct (IH c1 w1) as (c' & w' & Hrun & Hlogs & Hcount);
        [intros ch Hch; apply Hk; by right |];
        exists c', w'; split; [exact Hrun |]; split; [exact Hlogs |];
        cbn [count_tags_cleaned length] in *; lia
    end.
Qed.

(** X17.  On a document whose yielded elements all have an [id] and whose
    visited tags all have a key outside the four governed ones,
    [process_data] returns, writes to none of the four text files, and
    counts as corrected every visited tag that has a [v] attribute. *)
Theorem process_data_ungoverned (doc : list Element) (w : Wrangler) :
  (forall element, element ∈ get_element doc ->
     is_Some (dict_get (e_attrib element) "id")) ->
  (forall child, child ∈ visited_tags (get_element doc) ->
     governed_key (dict_get (c_attrib child) "k") = false) ->
  exists c w',
    process_data float_ok geocode doc w = Ok (c, w')
    /\ same_logs w w'
    /\ count_tags_cleaned c
       = Z.of_nat (length (List.filter has_value
                             (visited_tags (get_element doc)))).
Proof.
  unfold process_data.
  assert (Hloop : forall elements c0 w0,
            (forall element, element ∈ elements ->
               is_Some (dict_get (e_attrib element) "id")) ->
            (forall child, child ∈ visited_tags elements ->
               governed_key (dict_get (c_attrib child) "k") = false) ->
            exists c' w',
              element_loop float_ok geocode elements (c0, w0) = Ok (c', w')
              /\ same_logs w0 w'
              /\ count_tags_cleaned c'
                 = count_tags_cleaned c0
                   + Z.of_nat (length (List.filter has_value
                                         (visited_tags elements)))).
  { induction elements as [| element elements IH]; intros c0 w0 Hid Hk.
    { exists c0, w0. split; [done |]. split; [done |]. simpl. lia. }
    destruct (Hid element) as [element_id Heid]; [by left |].
    assert (Hid' : forall e, e ∈ elements ->
              is_Some (dict_get (e_attrib e) "id"))
      by (intros e He; apply Hid; by right).
    cbn [element_loop]. rewrite Heid. cbn [of_option rbind].
    fold (node_row element).
    unfold visited_tags in *. rewrite serialized_cons in *.
    destruct (writable node_fieldnames (node_row element)); cbn [negb].
    - cbn [List.map concat] in *.
      rewrite List.filter_app, length_app, Nat2Z.inj_add.
      destruct (tag_loop_ungoverned element element_id
                  (dict_get (e_attrib element) "lat")
                  (dict_get (e_attrib element) "lon")
                  (findall_tag element) c0
                  (write_node_row w0 (node_row element)))
        as (c1 & w1 & Htag & Hlogs1 & Hcount1).
      { intros ch Hch. apply Hk, elem_of_app. by left. }
      destruct (IH c1 w1 Hid') as (c' & w' & Hrun & Hlogs & Hcount).
      { intros ch Hch. apply Hk, elem_of_app. by right. }
      exists c', w'. split.
      + destruct (e_children element) as [| ch chs] eqn:Hch.
        * unfold findall_tag in Htag. rewrite Hch in Htag.
          injection Htag as <- <-. exact Hrun.
        * rewrite Htag. exact Hrun.
      + split; [| lia].
        destruct Hlogs as (H1 & H2 & H3 & H4),
                 Hlogs1 as (H1' & H2' & H3' & H4').
        cbn [write_node_row cleaned_streets cleaned_cities cleaned_zipcodes
             cleaned_population] in *.
        repeat split; congruence.
    - destruct (IH (mkCounts (exemption_count c0 + 1) (count_tags c0)
                      (count_tags_cleaned c0)) w0 Hid' Hk)
        as (c' & w' & Hrun & Hlogs & Hcount).
      exists c', w'. split; [exact Hrun |]. by split. }
  intros Hid Hk.
  destruct (Hloop (get_element doc) (mkCounts 0 0 0) (reset_data_files w)
              Hid Hk) as (c & w' & Hrun & Hlogs & Hcount).
  exists c, w'. split; [exact Hrun |]. split; [exact Hlogs |].
  cbn [count_tags_cleaned] in Hcount. lia.
Qed.

End Ungoverned.

(** X17 on the document of the one restaurant. *)
Lemma process_data_ungoverned_witness :
  exists c w',
    process_data (fun _ => true) (fun _ _ => Raise RequestError)
      [Examples.restaurant] (new_wrangler ∅) = Ok (c, w')
    /\ same_logs (new_wrangler ∅) w'
    /\ count_tags_cleaned c = 1.
Proof.
  apply (process_data_ungoverned (fun _ => true)
           (fun _ _ => Raise RequestError) [Examples.restaurant]
           (new_wrangler ∅)).
  - intros element [-> | H]%elem_of_cons; [by eexists |].
    by apply elem_of_nil in H.
  - intros child [-> | H]%elem_of_cons; [reflexivity |].
    by apply elem_of_nil in H.
Defined.

(** * Further properties of the auditor *)

(** ** [audit_population] on named places *)

Lemma population_triple_inv (pop_est : gmap string (string * string))
    (element : Element) (triple : pyval * string * pyval) :
  population_triple pop_est element = Some triple ->
  exists n0 ns name p0 ps popul,
    findall_tag_k "name" element = n0 :: ns
    /\ dict_get (c_attrib n0) "v" = Some name
    /\ findall_tag_k "population" element = p0 :: ps
    /\ dict_get (c_attrib p0) "v" = Some popul
    /\ triple = (VStr name, popul,
                 VStr match pop_est !! name with
                      | Some (_, estimate) => estimate
                      | None => popul
                      end).
Proof.
  unfold population_triple.
  destruct (findall_tag_k "name" element) as [| n0 ns]; [done |].
  cbn [head mbind option_bind].
  destruct (dict_get (c_attrib n0) "v") as [name |] eqn:Hn; [| done].
  cbn [mbind option_bind].
  destruct (findall_tag_k "population" element) as [| p0 ps]; [done |].
  cbn [head mbind option_bind].
  destruct (dict_get (c_attrib p0) "v") as [popul |] eqn:Hp; [| done].
  cbn [mbind option_bind]. intros [= <-].
  exists n0, ns, name, p0, ps, popul. auto 10.
Qed.

Lemma population_loop_named (pop_est : gmap string (string * string))
    (elements : list Element) (popul_2016 : option (list pyval))
    (popul_data : list (pyval * string * pyval)) :
  (forall element, element ∈ elements -> has_population element = true ->
     is_Some (population_triple pop_est element)) ->
  Audit.population_loop pop_est elements popul_2016 popul_data
  = Ok (popul_data
        ++ omap (population_triple pop_est)
             (List.filter has_population elements)).
Proof.
  revert popul_2016 popul_data.
  induction elements as [| element elements IH];
    intros popul_2016 popul_data Hnamed.
  { by rewrite app_nil_r. }
  assert (Hrest : forall e, e ∈ elements -> has_population e = true ->
            is_Some (population_triple pop_est e))
    by (intros e He; apply Hnamed; by right).
  cbn [Audit.population_loop List.filter].
  destruct (has_population element) eqn:Hpop.
  - destruct (Hnamed element ltac:(by left) Hpop) as [triple Htriple].
    cbn [omap list_omap]. rewrite Htriple.
    apply population_triple_inv in Htriple
      as (n0 & ns & name & p0 & ps & popul & -> & Hn & -> & Hp & ->).
    rewrite Hp, Hn. cbn [of_option rbind].
    destruct (pop_est !! name) as [[census estimate] |];
      change (PyList.get [?x; ?y] 1) with (Ok y); cbn [rbind];
      rewrite IH by exact Hrest; by rewrite <- app_assoc.
  - unfold has_population in Hpop.
    destruct (findall_tag_k "population" element); [| done].
    by apply IH.
Qed.

(** X18.  On a document in which every element with a [population] tag
    also has a [name] tag, both with a value, [audit_population] returns
    one triple for each such element, in document order: the name, the
    population, and the estimate of the reference table or, for a name the
    table does not have, the population again. *)
Theorem audit_population_named (pop_est : gmap string (string * string))
    (doc : list Element) :
  (forall element, element ∈ Audit.get_element doc ->
     has_population element = true ->
     is_Some (population_triple pop_est element)) ->
  Audit.audit_population pop_est doc
  = Ok (omap (population_triple pop_est)
          (List.filter has_population (Audit.get_element doc))).
Proof.
  intros H. unfold Audit.audit_population.
  by rewrite population_loop_named.
Qed.

(** X18 on the document of the one place [Austin]. *)
Lemma audit_population_named_witness :
  Audit.audit_population Examples.table [Examples.restaurant; Examples.austin]
  = Ok [(VStr "Austin", "790390", VStr "931830")].
Proof.
  rewrite (audit_population_named Examples.table
             [Examples.restaurant; Examples.austin]).
  - vm_compute. reflexivity.
  - intros element [-> | [-> | H]%elem_of_cons]%elem_of_cons.
    + discriminate.
    + intros _. vm_compute. by eexists.
    + by apply elem_of_nil in H.
Defined.

(** ** [get_osm_stats] *)

Ltac same_counts :=
  apply f_equal;
  repeat (apply (f_equal2 cons); [apply f_equal; cbn [length]; lia |]);
  reflexivity.

Lemma osm_stats_loop_counts (elements : list Element) (a b c : Z) :
  (forall element, element ∈ elements ->
     in_list (e_tag element) ["node"; "way"; "relation"] = true) ->
  Audit.osm_stats_loop elements [("node", a); ("way", b); ("relation", c)]
  = Ok [("node",
         a + Z.of_nat (length (List.filter
                                 (fun e => String.eqb (e_tag e) "node")
                                 elements)));
        ("way",
         b + Z.of_nat (length (List.filter
                                 (fun e => String.eqb (e_tag e) "way")
                                 elements)));
        ("relation",
         c + Z.of_nat (length (List.filter
                                 (fun e => String.eqb (e_tag e) "relation")
                                 elements)))].
Proof.
  revert a b c. induction elements as [| element elements IH];
    intros a b c Hin.
  { cbn. by rewrite !Z.add_0_r. }
  assert (Hrest : forall e, e ∈ elements ->
            in_list (e_tag e) ["node"; "way"; "relation"] = true)
    by (intros e He; apply Hin; by right).
  pose proof (Hin element ltac:(by left)) as Htag.
  unfold in_list in Htag. cbn [existsb] in Htag.
  cbn [Audit.osm_stats_loop List.filter].
  destruct (String.eqb_spec (e_tag element) "node") as [-> | Hn].
  { cbn. rewrite IH by exact Hrest. same_counts. }
  destruct (String.eqb_spec (e_tag element) "way") as [-> | Hw].
  { cbn. rewrite IH by exact Hrest. same_counts. }
  destruct (String.eqb_spec (e_tag element) "relation") as [-> | Hr];
    [| done].
  cbn. rewrite IH by exact Hrest. same_counts.
Qed.

Lemma filter_get_element (doc : list Element) (name : string) :
  in_list name ["node"; "way"; "relation"] = true ->
  List.filter (fun e => String.eqb (e_tag e) name) (Audit.get_element doc)
  = List.filter (fun e => String.eqb (e_tag e) name) doc.
Proof.
  intros Hname. unfold Audit.get_element.
  induction doc as [| e doc IH]; [done |].
  cbn [List.filter].
  destruct (in_list (e_tag e) ["node"; "way"; "relation"]) eqn:Hin.
  - cbn [List.filter]. by rewrite IH.
  - rewrite IH. destruct (String.eqb_spec (e_tag e) name) as [E | _];
      [| done].
    congruence.
Qed.

(** X19.  [get_osm_stats] never raises: its three counters are the numbers
    of [node], [way] and [relation] elements of the document. *)
Theorem get_osm_stats_counts (doc : list Element) :
  Audit.get_osm_stats doc
  = Ok (List.map
          (fun name =>
             (name,
              Z.of_nat (length (List.filter
                                  (fun e => String.eqb (e_tag e) name)
                                  doc))))
          ["node"; "way"; "relation"]).
Proof.
  unfold Audit.get_osm_stats. rewrite osm_stats_loop_counts.
  - cbn [List.map]. by rewrite !filter_get_element.
  - intros element He. unfold Audit.get_element in He.
    apply list_elem_of_In, filter_In in He. apply He.
Qed.

(** ** The tallies *)

Lemma tally_get_set (d : list (option string * Z)) (k x : option string)
    (n : Z) :
  Audit.tally_get (Audit.tally_set d k n) x
  = if decide (k = x) then Some n else Audit.tally_get d x.
Proof.
  induction d as [| [k' n'] d IH]; cbn [Audit.tally_set Audit.tally_get].
  - done.
  - destruct (decide (k' = k)) as [-> | Hne]; cbn [Audit.tally_get].
    + by destruct (decide (k = x)).
    + rewrite IH. destruct (decide (k' = x)) as [-> | _]; [| done].
      by destruct (decide (k = x)).
Qed.

Lemma tally_tags_flat (key : string) (d : list (option string * Z))
    (elements : list Element) :
  Audit.tally_tags key d elements
  = fold_left
      (fun d tag =>
         if key_is (dict_get (c_attrib tag) "k") key
         then Audit.tally_incr d (dict_get (c_attrib tag) "v")
         else d)
      (List.concat (List.map Audit.iter_tag elements)) d.
Proof.
  unfold Audit.tally_tags. revert d.
  induction elements as [| element elements IH]; intros d; [done |].
  cbn [fold_left List.map concat]. by rewrite fold_left_app, IH.
Qed.

(** X20.  After the loop of [audit_cities] or of [audit_amenities] the
    tally holds, for each value, the count it held before plus the number
    of tags with the audited key and that value; a value no such tag has
    keeps its entry, or stays without one. *)
Theorem tally_tags_counts (key : string) (d : list (option string * Z))
    (elements : list Element) (x : option string) :
  let n := occurrences key x
             (List.concat (List.map Audit.iter_tag elements)) in
  Audit.tally_get (Audit.tally_tags key d elements) x
  = if n =? 0 then Audit.tally_get d x
    else Some (default 0 (Audit.tally_get d x) + n).
Proof.
  rewrite tally_tags_flat.
  generalize (List.concat (List.map Audit.iter_tag elements)) as tags.
  intros tags. revert d. unfold occurrences.
  induction tags as [| tag tags IH]; intros d; [done |].
  cbn [fold_left List.filter]. cbv zeta in IH. rewrite IH. clear IH.
  destruct (key_is (dict_get (c_attrib tag) "k") key); cbn [andb];
    [| done].
  unfold Audit.tally_incr. rewrite tally_get_set.
  destruct (decide (dict_get (c_attrib tag) "v" = x)) as [-> | Hne].
  - rewrite bool_decide_eq_true_2 by done. cbn [length from_option id].
    generalize (default 0 (Audit.tally_get d x)) as a. intros a.
    set (m := length _).
    destruct (Z.eqb_spec (Z.of_nat m) 0) as [Hm | Hm];
      destruct (Z.eqb_spec (Z.of_nat (S m)) 0); try lia;
      apply (f_equal Some); lia.
  - by rewrite bool_decide_eq_false_2.
Qed.

(** ** The sorted report *)

Lemma insert_key_perm (k : string) (l : list string) :
  Audit.insert_key k l ≡ₚ k :: l.
Proof.
  induction l as [| k' l IH]; [done |]. cbn [Audit.insert_key].
  destruct (String.leb _ _); [done |].
  rewrite IH. apply Permutation_swap.
Qed.

Lemma sorted_keys_perm (keys : list string) : Audit.sorted_keys keys ≡ₚ keys.
Proof.
  induction keys as [| k keys IH]; [done |].
  cbn [Audit.sorted_keys foldr]. rewrite insert_key_perm.
  by apply Permutation_cons.
Qed.

Lemma insert_key_hd (a k : string) (l : list string) :
  key_le a k -> HdRel key_le a l -> HdRel key_le a (Audit.insert_key k l).
Proof.
  intros Hak Hal. destruct l as [| k' l]; cbn [Audit.insert_key].
  - by constructor.
  - destruct (String.leb _ _); constructor; [done |].
    by inversion Hal.
Qed.

Lemma insert_key_sorted (k : string) (l : list string) :
  Sorted key_le l -> Sorted key_le (Audit.insert_key k l).
Proof.
  induction 1 as [| k' l Hl IH Hhd]; cbn [Audit.insert_key].
  - repeat constructor.
  - destruct (String.leb (Str.lower k) (Str.lower k')) eqn:Hle.
    + constructor; [by constructor |]. by constructor.
    + constructor; [exact IH |].
      apply insert_key_hd; [| exact Hhd].
      unfold key_le.
      destruct (String.leb_total (Str.lower k') (Str.lower k)) as [H | H];
        [exact H | congruence].
Qed.

Lemma sorted_keys_sorted (keys : list string) :
  Sorted key_le (Audit.sorted_keys keys).
Proof.
  induction keys as [| k keys IH]; [constructor |].
  cbn [Audit.sorted_keys foldr]. by apply insert_key_sorted.
Qed.

Lemma string_keys_inv (d : list (option string * Z)) :
  match Audit.string_keys d with
  | Ok keys => List.map Some keys = List.map fst d
  | Raise e => e = AttributeError /\ None ∈ List.map fst d
  end.
Proof.
  induction d as [| [[k |] n] d IH]; cbn [Audit.string_keys List.map fst].
  - done.
  - destruct (Audit.string_keys d) as [keys | e]; cbn [rbind List.map].
    + by rewrite IH.
    + destruct IH as [-> Hin]. split; [done | by right].
  - split; [done | by left].
Qed.

Lemma tally_get_key (d : list (option string * Z)) (k : option string) :
  k ∈ List.map fst d -> is_Some (Audit.tally_get d k).
Proof.
  induction d as [| [k' n] d IH]; cbn [List.map fst Audit.tally_get].
  - intros H. by apply elem_of_nil in H.
  - intros [<- | H]%elem_of_cons.
    + rewrite decide_True by done. by eexists.
    + destruct (decide (k' = k)); [by eexists | by apply IH].
Qed.

Lemma lines_of_keys (d : list (option string * Z)) (keys : list string) :
  (forall k, k ∈ keys -> Some k ∈ List.map fst d) ->
  exists lines,
    Audit.lines_of d keys = Ok lines
    /\ List.map fst lines = keys
    /\ Forall (fun kv => Audit.tally_get d (Some (fst kv)) = Some (snd kv))
         lines.
Proof.
  induction keys as [| k keys IH]; intros Hin.
  { exists []. by repeat constructor. }
  destruct (tally_get_key d (Some k)) as [v Hv]; [apply Hin; by left |].
  destruct IH as (lines & Hrun & Hkeys & Hall);
    [intros k' Hk'; apply Hin; by right |].
  exists ((k, v) :: lines).
  cbn [Audit.lines_of]. rewrite Hv. cbn [of_option rbind]. rewrite Hrun.
  cbn [rbind List.map fst]. rewrite Hkeys.
  split; [done |]. split; [done |]. by constructor.
Qed.

(** X21.  [print_sorted_dict] prints one line for each key of the
    dictionary, with the count the dictionary holds for it, in the order
    of the lower-cased keys; a dictionary that has [None] among its keys
    makes it raise [AttributeError]. *)
Theorem print_sorted_dict_report (d : list (option string * Z)) :
  match Audit.print_sorted_dict d with
  | Ok lines =>
      List.map (fun kv => Some (fst kv)) lines ≡ₚ List.map fst d
      /\ Sorted key_le (List.map fst lines)
      /\ Forall (fun kv => Audit.tally_get d (Some (fst kv)) = Some (snd kv))
           lines
  | Raise e => e = AttributeError /\ None ∈ List.map fst d
  end.
Proof.
  unfold Audit.print_sorted_dict.
  pose proof (string_keys_inv d) as Hkeys.
  destruct (Audit.string_keys d) as [keys | e]; cbn [rbind]; [| exact Hkeys].
  destruct (lines_of_keys d (Audit.sorted_keys keys))
    as (lines & -> & Hfst & Hall).
  { intros k Hk. rewrite <- Hkeys. apply list_elem_of_fmap_2.
    by rewrite <- (sorted_keys_perm keys). }
  split; [| split; [| exact Hall]].
  - rewrite <- Hkeys, <- (List.map_map fst Some lines), Hfst.
    apply Permutation_map, sorted_keys_perm.
  - rewrite Hfst. apply sorted_keys_sorted.
Qed.

(** ** Street directions and tag values *)

Lemma first_token_prefix (s : string) :
  Str.prefixb (Audit.first_token s) s = true
  /\ Str.forallb (fun c => negb (Char.is_space c)) (Audit.first_token s)
     = true.
Proof.
  induction s as [| c s [IH1 IH2]]; [done |].
  cbn [Audit.first_token]. destruct (Char.is_space c) eqn:Hc; [done |].
  cbn [Str.prefixb Str.forallb]. by rewrite Ascii.eqb_refl, IH1, IH2, Hc.
Qed.

Lemma tally_set_keys (d : list (option string * Z)) (k x : option string)
    (n : Z) :
  x ∈ List.map fst (Audit.tally_set d k n) ->
  x = k \/ x ∈ List.map fst d.
Proof.
  induction d as [| [k' n'] d IH]; cbn [Audit.tally_set List.map fst].
  - intros [-> | H]%elem_of_cons; [by left | by apply elem_of_nil in H].
  - destruct (decide (k' = k)); cbn [List.map fst].
    + intros H. by right.
    + intros [-> | H]%elem_of_cons; [right; by left |].
      destruct (IH H) as [-> | Hd]; [by left | right; by right].
Qed.

(** X22.  Every key the loop of [audit_street_direc] adds to its tally is
    the start of the value of an [addr:street] tag up to its first
    whitespace, and is not empty; the loop raises, with [TypeError], only
    for an [addr:street] tag that has no value. *)
Theorem street_direc_tags_keys (tags : list Child)
    (d : list (option string * Z)) :
  match Audit.street_direc_tags tags d with
  | Ok d' =>
      forall k, k ∈ List.map fst d' ->
        k ∈ List.map fst d
        \/ exists tag street,
             tag ∈ tags
             /\ dict_get (c_attrib tag) "k" = Some "addr:street"
             /\ dict_get (c_attrib tag) "v" = Some street
             /\ k = Some (Audit.first_token street)
             /\ Audit.first_token street <> EmptyString
             /\ Str.prefixb (Audit.first_token street) street = true
             /\ Str.forallb (fun c => negb (Char.is_space c))
                  (Audit.first_token street) = true
  | Raise e =>
      e = TypeError
      /\ exists tag,
           tag ∈ tags
           /\ dict_get (c_attrib tag) "k" = Some "addr:street"
           /\ dict_get (c_attrib tag) "v" = None
  end.
Proof.
  revert d. induction tags as [| tag tags IH]; intros d.
  { intros k Hk. by left. }
  assert (Hlater : forall d0,
            match Audit.street_direc_tags tags d0 with
            | Ok d' =>
                forall k, k ∈ List.map fst d' ->
                  k ∈ List.map fst d0
                  \/ exists tag0 street,
                       tag0 ∈ tag :: tags
                       /\ dict_get (c_attrib tag0) "k" = Some "addr:street"
                       /\ dict_get (c_attrib tag0) "v" = Some street
                       /\ k = Some (Audit.first_token street)
                       /\ Audit.first_token street <> EmptyString
                       /\ Str.prefixb (Audit.first_token street) street = true
                       /\ Str.forallb (fun c => negb (Char.is_space c))
                            (Audit.first_token street) = true
            | Raise e =>
                e = TypeError
                /\ exists tag0,
                     tag0 ∈ tag :: tags
                     /\ dict_get (c_attrib tag0) "k" = Some "addr:street"
                     /\ dict_get (c_attrib tag0) "v" = None
            end).
  { intros d0. specialize (IH d0).
    destruct (Audit.street_direc_tags tags d0) as [d' | e].
    - intros k Hk. destruct (IH k Hk) as [H | (t & s & Ht & H)];
        [by left |].
      right. exists t, s. split; [by right | exact H].
    - destruct IH as (-> & t & Ht & H). split; [done |].
      exists t. split; [by right | exact H]. }
  cbn [Audit.street_direc_tags].
  destruct (dict_get (c_attrib tag) "k") as [key |] eqn:Hkey;
    cbn [key_is]; [| apply Hlater].
  destruct (String.eqb_spec key "addr:street") as [-> | _]; [| apply Hlater].
  destruct (dict_get (c_attrib tag) "v") as [street |] eqn:Hv;
    cbn [of_option rbind].
  2: { split; [done |]. exists tag. split; [by left | done]. }
  destruct (Audit.first_token street) as [| c t] eqn:Htok;
    cbn [Str.is_empty]; [apply Hlater |].
  specialize (Hlater (Audit.tally_incr d (Some (String c t)))).
  destruct (Audit.street_direc_tags tags _) as [d' | e]; [| exact Hlater].
  intros k Hk. destruct (Hlater k Hk) as [Hin | H]; [| by right].
  apply tally_set_keys in Hin as [-> | Hin]; [| by left].
  right. exists tag, street. rewrite Htok.
  destruct (first_token_prefix street) as [Hp Hs]. rewrite Htok in Hp, Hs.
  split; [by left |]. repeat (split; [done |]). done.
Qed.

Lemma split_blank_tokens (s t : string) :
  t ∈ Str.split_blank s ->
  Str.forallb (fun c => negb (Char.is_blank c)) t = true.
Proof.
  revert t. induction s as [| c s IH]; intros t.
  { intros [-> | H]%elem_of_cons; [done | by apply elem_of_nil in H]. }
  cbn [Str.split_blank]. destruct (Char.is_blank c) eqn:Hc.
  - intros [-> | H]%elem_of_cons; [done | by apply IH].
  - destruct (Str.split_blank s) as [| t0 ts].
    + intros [-> | H]%elem_of_cons; [| by apply elem_of_nil in H].
      cbn. by rewrite Hc.
    + intros [-> | H]%elem_of_cons.
      * cbn [Str.forallb]. rewrite Hc. cbn [negb andb]. apply IH. by left.
      * apply IH. by right.
Qed.

Lemma last_token_no_blank (v : option string) (t : string) :
  Audit.last_token v = Some t ->
  Str.forallb (fun c => negb (Char.is_blank c)) t = true.
Proof.
  unfold Audit.last_token. destruct v as [s |]; [| done].
  destruct (Str.is_empty s) eqn:He.
  - intros [= <-]. by destruct s.
  - intros [= <-].
    destruct (last (Str.split_blank s)) as [t |] eqn:Hl; [| done].
    apply (split_blank_tokens s). rewrite last_lookup in Hl.
    by eapply list_elem_of_lookup_2.
Qed.

Lemma audit_tags_loop_values (tag_name : string) (tags : list Child)
    (tag_values : gset (option string)) :
  match Audit.audit_tags_loop tag_name tags tag_values with
  | Ok values =>
      forall x, x ∈ values <->
        x ∈ tag_values
        \/ exists tag,
             tag ∈ tags
             /\ dict_get (c_attrib tag) "k" = Some tag_name
             /\ Audit.last_token (dict_get (c_attrib tag) "v") = x
  | Raise e =>
      e = KeyError
      /\ exists tag, tag ∈ tags /\ dict_get (c_attrib tag) "k" = None
  end.
Proof.
  revert tag_values. induction tags as [| tag tags IH]; intros tag_values.
  { intros x. split; [by left |].
    intros [H | (t & Ht & _)]; [done | by apply elem_of_nil in Ht]. }
  cbn [Audit.audit_tags_loop].
  destruct (dict_get (c_attrib tag) "k") as [k |] eqn:Hk;
    cbn [of_option rbind].
  2: { split; [done |]. exists tag. split; [by left | done]. }
  destruct (String.eqb_spec k tag_name) as [-> | Hne].
  - specialize (IH ({[Audit.last_token (dict_get (c_attrib tag) "v")]}
                    ∪ tag_values)).
    destruct (Audit.audit_tags_loop _ _ _) as [values | e].
    + intros x. rewrite IH, elem_of_union, elem_of_singleton. split.
      * intros [[-> | H] | (t & Ht & H)]; [| by left |].
        -- right. exists tag. split; [by left | done].
        -- right. exists t. split; [by right | done].
      * intros [H | (t & [-> | Ht]%elem_of_cons & Hkt & Hv)].
        -- left. by right.
        -- left. by left.
        -- right. by exists t.
    + destruct IH as (-> & t & Ht & H). split; [done |].
      exists t. split; [by right | done].
  - specialize (IH tag_values).
    destruct (Audit.audit_tags_loop _ _ _) as [values | e].
    + intros x. rewrite IH. split.
      * intros [H | (t & Ht & H)]; [by left |].
        right. exists t. split; [by right | done].
      * intros [H | (t & [-> | Ht]%elem_of_cons & Hkt & Hv)];
          [by left | congruence |].
        right. by exists t.
    + destruct IH as (-> & t & Ht & H). split; [done |].
      exists t. split; [by right | done].
Qed.

(** X23.  The set [audit_tags] prints for a key holds exactly the last
    blank-separated token of the value of each tag with that key ([None]
    or the empty string for a tag whose value is missing or empty), so none
    of its strings holds a blank; [audit_tags] raises, with [KeyError], only
    if some tag has no [k]. *)
Theorem audit_tags_values (tag_name : string) (doc : list Element) :
  match Audit.audit_tags tag_name doc with
  | Ok values =>
      (forall x, x ∈ values <->
         exists tag,
           tag ∈ List.concat (List.map Audit.iter_tag (Audit.get_element doc))
           /\ dict_get (c_attrib tag) "k" = Some tag_name
           /\ Audit.last_token (dict_get (c_attrib tag) "v") = x)
      /\ forall t, Some t ∈ values ->
           Str.forallb (fun c => negb (Char.is_blank c)) t = true
  | Raise e =>
      e = KeyError
      /\ exists tag,
           tag ∈ List.concat (List.map Audit.iter_tag (Audit.get_element doc))
           /\ dict_get (c_attrib tag) "k" = None
  end.
Proof.
  unfold Audit.audit_tags.
  pose proof (audit_tags_loop_values tag_name
                (List.concat (List.map Audit.iter_tag (Audit.get_element doc)))
                ∅) as H.
  destruct (Audit.audit_tags_loop _ _ _) as [values | e]; [| exact H].
  assert (Hvalues : forall x, x ∈ values <->
            exists tag,
              tag ∈ List.concat
                      (List.map Audit.iter_tag (Audit.get_element doc))
              /\ dict_get (c_attrib tag) "k" = Some tag_name
              /\ Audit.last_token (dict_get (c_attrib tag) "v") = x).
  { intros x. rewrite H. split; [| by right].
    intros [Hx | Hx]; [by apply not_elem_of_empty in Hx | exact Hx]. }
  split; [exact Hvalues |].
  intros t (tag & _ & _ & Ht)%Hvalues.
  by eapply last_token_no_blank.
Qed.

(** * Further properties of [shape_streetname] and [get_element] *)

(** X24.  On a street without the letters U+00B5, U+00DF and U+00FF, a call
    of [shape_streetname] that returns has written at most one line, to the
    streets file only: the raw street with the returned one, exactly when
    the returned street differs from the raw one without its unit markers
    and outer whitespace. *)
Theorem shape_streetname_one_line (street new_street : string)
    (w w' : Wrangler) :
  Str.titled street = true ->
  shape_streetname street w = Ok (new_street, w') ->
  w' = if String.eqb (Str.strip Char.is_space (Str.sub_hash street)) new_street
       then w
       else write_street w (street, new_street).
Proof. intros _. apply shape_streetname_log. Qed.

(** X24 at ["123 N Lamar"]. *)
Lemma shape_streetname_one_line_witness :
  write_street (new_wrangler ∅) ("123 N Lamar", "North Lamar")
  = if String.eqb (Str.strip Char.is_space (Str.sub_hash "123 N Lamar"))
         "North Lamar"
    then new_wrangler ∅
    else write_street (new_wrangler ∅) ("123 N Lamar", "North Lamar").
Proof.
  apply (shape_streetname_one_line "123 N Lamar" "North Lamar"
           (new_wrangler ∅)); reflexivity.
Defined.







(** ** The elements [get_element] yields *)

Lemma prefixb_cons_inv (t : string) (c : ascii) (s : string) :
  Str.prefixb t (String c s) = true ->
  t = EmptyString \/ exists t', t = String c t' /\ Str.prefixb t' s = true.
Proof.
  destruct t as [| a t]; [by left |].
  cbn [Str.prefixb]. intros [Ha Ht]%andb_prop.
  apply Ascii.eqb_eq in Ha as ->. right. by exists t.
Qed.

Lemma prefixb_nil_inv (t : string) :
  Str.prefixb t EmptyString = true -> t = EmptyString.
Proof. by destruct t. Qed.

Ltac prefix_cases H :=
  repeat match type of H with
         | Str.prefixb _ (String _ _) = true =>
             apply prefixb_cons_inv in H as [-> | (? & -> & H)];
             [reflexivity |]
         | Str.prefixb _ EmptyString = true =>
             apply prefixb_nil_inv in H as ->; reflexivity
         end.

Lemma contained_in_node (t : string) :
  Str.containsb t "node" = true
  <-> in_list t ["node"; "nod"; "no"; "n"; "ode"; "od"; "o"; "de"; "d"; "e";
                 EmptyString] = true.
Proof.
  split.
  - cbn [Str.containsb].
    intros H. repeat (apply orb_prop in H as [H | H]; [prefix_cases H |]).
    discriminate.
  - unfold in_list. cbn [existsb].
    intros H.
    repeat (apply orb_prop in H as [H | H];
            [by apply String.eqb_eq in H as -> |]).
    discriminate.
Qed.

(** X26.  The wrangler's [get_element] compares the name of an element with
    the string ['node'], not with a tuple of names: it yields an element
    exactly when its name occurs in [node], so every [node] element is
    yielded and no [way] or [relation] element is. *)
Theorem get_element_names (doc : list Element) (element : Element) :
  element ∈ get_element doc
  <-> element ∈ doc
      /\ in_list (e_tag element)
           ["node"; "nod"; "no"; "n"; "ode"; "od"; "o"; "de"; "d"; "e";
            EmptyString] = true.
Proof.
  unfold get_element.
  rewrite list_elem_of_In, filter_In, <- list_elem_of_In.
  by rewrite contained_in_node.
Qed.

(** ** The reference table *)

Lemma row_entry_get (row : list string) :
  match row_entry row with
  | Some (name, (census, estimate)) =>
      PyList.get row 2 = Ok census /\ PyList.get row 4 = Ok estimate
      /\ PyList.get row 1 = Ok name
  | None => PyList.get row 2 = Raise IndexError
            \/ PyList.get row 4 = Raise IndexError
  end.
Proof.
  destruct row as [| a [| b [| c [| d [| e row]]]]]; cbn [row_entry];
    try (by left); try (by right).
  split; [by apply (get_lookup _ 2%nat) |].
  split; [by apply (get_lookup _ 4%nat) | by apply (get_lookup _ 1%nat)].
Qed.

Lemma get_raises {A : Type} (l : list A) (i : Z) (e : exn) :
  PyList.get l i = Raise e -> e = IndexError.
Proof.
  unfold PyList.get. destruct (PyList.position l i) as [n |]; [| congruence].
  destruct (l !! n); cbn [of_option]; congruence.
Qed.

(** X27.  [get_popul_est] raises, with [IndexError], exactly when some row
    has fewer than five fields.  Otherwise the table it leaves maps a name
    to the third and fifth field of the last row whose second field is that
    name, and keeps its previous entry for a name no row has. *)
Theorem get_popul_est_last_row (rows : list (list string))
    (pop_est : gmap string (string * string)) :
  match get_popul_est rows pop_est with
  | Ok table =>
      Forall (fun row => is_Some (row_entry row)) rows
      /\ forall name,
           table !! name
           = match last (rows_named name rows) with
             | Some row => snd <$> row_entry row
             | None => pop_est !! name
             end
  | Raise e =>
      e = IndexError /\ Exists (fun row => row_entry row = None) rows
  end.
Proof.
  revert pop_est. induction rows as [| row rows IH]; intros pop_est.
  { split; [constructor | done]. }
  cbn [get_popul_est]. pose proof (row_entry_get row) as Hrow.
  destruct (row_entry row) as [[name [census estimate]] |] eqn:Hentry.
  - destruct Hrow as (-> & -> & ->). cbn [rbind].
    specialize (IH (<[name:=(census, estimate)]> pop_est)).
    destruct (get_popul_est rows _) as [table | e].
    + destruct IH as [Hall Hlookup]. split.
      * constructor; [by rewrite Hentry | exact Hall].
      * intros x. rewrite Hlookup. unfold rows_named.
        cbn [List.filter]. rewrite Hentry.
        fold (rows_named x rows).
        destruct (String.eqb_spec name x) as [-> | Hne].
        -- rewrite last_cons.
           destruct (last (rows_named x rows)); [done |].
           by rewrite Hentry, lookup_insert_eq.
        -- destruct (last (rows_named x rows)); [done |].
           by rewrite lookup_insert_ne.
    + destruct IH as [-> Hex]. split; [done | by right].
  - assert (Hexists : Exists (fun r => row_entry r = None) (row :: rows))
      by (by left).
    destruct (PyList.get row 2) as [census | e] eqn:H2; cbn [rbind].
    + destruct Hrow as [Hrow | ->]; [discriminate |]. by split.
    + apply get_raises in H2 as ->. by split.
Qed.


(** * Idempotence of [shape_streetname] on well-formed streets *)

(** ** Case changes keep the class of a character *)




Lemma case_twice (c : ascii) :
  Char.lower (Char.upper c) = Char.lower c
  /\ Char.lower (Char.lower c) = Char.lower c
  /\ Char.upper (Char.upper c) = Char.upper c.
Proof. by destruct c as [[] [] [] [] [] [] [] []]. Qed.

Section Classes.

Variable p : ascii -> bool.
Hypothesis p_upper : forall c, p (Char.upper c) = p c.
Hypothesis p_lower : forall c, p (Char.lower c) = p c.







End Classes.





Lemma lower_lower (s : string) : Str.lower (Str.lower s) = Str.lower s.
Proof.
  unfold Str.lower. induction s as [| c s IH]; [done |].
  cbn [Str.map]. by rewrite IH, (proj1 (proj2 (case_twice c))).
Qed.


Lemma capitalize_capitalize (t : string) :
  Str.capitalize (Str.capitalize t) = Str.capitalize t.
Proof.
  destruct t as [| c r]; [done |].
  cbn [Str.capitalize].
  by rewrite lower_lower, (proj2 (proj2 (case_twice c))).
Qed.


(** ** What stripping and splitting leave *)
















(** ** Joining and splitting again *)










(** ** The tokens of a street *)




(** ** Tokens after capitalisation *)




(** ** The words the two loops put in *)



(** ** What the direction loop returns *)


(** ** Settled street types *)









(** ** What the scan returns *)








(** ** The street returned for a well-formed one is normalised *)







(** Streets that are not well formed, one for each way of it, on which a
    second call changes the street again: two house numbers; an empty token
    that comes first; a street type directly after one that is moved; a
    street type after [hwy]; a direction letter that is neither first nor
    last; a number that comes first once the street type is moved. *)
Lemma not_well_formed_not_idempotent :
  ~ idempotent_at "12 34 Main" /\ ~ idempotent_at "St  A"
  /\ ~ idempotent_at "St Ave X" /\ ~ idempotent_at "Hwy 71 Rd"
  /\ ~ idempotent_at "Rd N A" /\ ~ idempotent_at "St 12 Main".
Proof.
  repeat split; intros H.
  - destruct (H (new_wrangler ∅) _ "34 Main" eq_refl) as [w2 Hw2].
    discriminate Hw2.
  - destruct (H (new_wrangler ∅) _ " A Street" eq_refl) as [w2 Hw2].
    discriminate Hw2.
  - destruct (H (new_wrangler ∅) _ "Ave X Street" eq_refl) as [w2 Hw2].
    discriminate Hw2.
  - destruct (H (new_wrangler ∅) _ "Highway 71 Rd" eq_refl) as [w2 Hw2].
    discriminate Hw2.
  - destruct (H (new_wrangler ∅) _ "N A Road" eq_refl) as [w2 Hw2].
    discriminate Hw2.
  - destruct (H (new_wrangler ∅) _ "12 Main Street" eq_refl) as [w2 Hw2].
    discriminate Hw2.
Qed.
